(** * PriceDrop-AI: the dual-search price comparison of [src/server.js]

    A shallow embedding of the [/api/search] handler and of the functions it
    calls: the two acquisition passes, the in-place price repair, the 40%
    fairness rule and the two link builders.

    Conventions of the embedding.
    - A JavaScript number is a [number]: the three special values of IEEE 754
      that the code can meet ([NaN], [+Infinity], [-Infinity]) and the finite
      values, which are represented by the rational they denote.  Arithmetic
      on finite values is exact: the rounding of binary64 and the sign of
      zero are not modelled.  The concrete inputs used below are ones on
      which binary64 takes the same branches.
    - A JavaScript string is a list of UTF-16 code units.
    - [Math.random], the log of calls and thrown exceptions live in a small
      state-and-exception monad.
    - What the host provides and the file does not define ([JSON.parse],
      [String.prototype.toLowerCase], the clock read by [new Date()]) is a
      method of the class [Host]. *)

From Stdlib Require Import QArith Qround Lqa Lia ZArith NArith List Bool String Ascii.
Import ListNotations.

Set Implicit Arguments.
Local Open Scope Q_scope.

(** ** Strings *)

Definition jsstring := list N.

Definition lit (s : string) : jsstring :=
  List.map N_of_ascii (list_ascii_of_string s).

Definition str_eqb (a b : jsstring) : bool :=
  if list_eq_dec N.eq_dec a b then true else false.

(** Truthiness of a string value that may be absent ([undefined] or [null]):
    the empty string is falsy as well. *)
Definition truthy (s : option jsstring) : bool :=
  match s with
  | Some (_ :: _) => true
  | _ => false
  end.

(** [a || b] on such values. *)
Definition or_else (a : option jsstring) (b : jsstring) : jsstring :=
  match a with
  | Some (c :: s) => c :: s
  | _ => b
  end.

(** ** Numbers *)

Inductive number : Type :=
| NaN
| NegInf
| Fin (q : Q)
| PosInf.

Definition Qlt_bool (x y : Q) : bool := negb (Qle_bool y x).

Module Num.

Definition sub (a b : number) : number :=
  match a, b with
  | NaN, _ | _, NaN => NaN
  | Fin x, Fin y => Fin (x - y)
  | PosInf, PosInf | NegInf, NegInf => NaN
  | PosInf, _ | _, NegInf => PosInf
  | NegInf, _ | _, PosInf => NegInf
  end.

Definition add (a b : number) : number :=
  match a, b with
  | NaN, _ | _, NaN => NaN
  | Fin x, Fin y => Fin (x + y)
  | PosInf, NegInf | NegInf, PosInf => NaN
  | PosInf, _ | _, PosInf => PosInf
  | NegInf, _ | _, NegInf => NegInf
  end.

(** The sign of [x * oo] for a finite [x]; [0 * oo] is [NaN]. *)
Definition scale_inf (x : Q) (pos : bool) : number :=
  if Qeq_bool x 0 then NaN
  else if xorb (Qlt_bool 0 x) pos then NegInf else PosInf.

Definition mul (a b : number) : number :=
  match a, b with
  | NaN, _ | _, NaN => NaN
  | Fin x, Fin y => Fin (x * y)
  | Fin x, PosInf | PosInf, Fin x => scale_inf x true
  | Fin x, NegInf | NegInf, Fin x => scale_inf x false
  | PosInf, PosInf | NegInf, NegInf => PosInf
  | PosInf, NegInf | NegInf, PosInf => NegInf
  end.

(** [a < b]; every comparison with [NaN] is false. *)
Definition lt (a b : number) : bool :=
  match a, b with
  | NaN, _ | _, NaN => false
  | Fin x, Fin y => Qlt_bool x y
  | NegInf, NegInf | PosInf, _ | _, NegInf => false
  | NegInf, _ | _, PosInf => true
  end.

(** [a <= b]. *)
Definition le (a b : number) : bool :=
  match a, b with
  | NaN, _ | _, NaN => false
  | Fin x, Fin y => Qle_bool x y
  | NegInf, _ | _, PosInf => true
  | PosInf, _ | _, NegInf => false
  end.

(** [a >= b]. *)
Definition ge (a b : number) : bool := le b a.

(** [Math.floor]. *)
Definition floor (a : number) : number :=
  match a with
  | Fin x => Fin (inject_Z (Qfloor x))
  | _ => a
  end.

(** [Math.round]: the nearest integer, a tie going up. *)
Definition round (a : number) : number :=
  match a with
  | Fin x => Fin (inject_Z (Qfloor (x + (1 # 2))))
  | _ => a
  end.

Definition of_Z (z : Z) : number := Fin (inject_Z z).

End Num.

(** ** The 40% fairness rule *)

Record decision : Type := {
  partnerSavings : number;
  competitorSavings : number;
  savingsGap : number;
  threshold : number;
  showPartner : bool;
  explanation : jsstring
}.

Definition apply40PercentRule (originalPrice partnerPrice competitorPrice : number)
  : decision :=
  let partnerSavings := Num.sub originalPrice partnerPrice in
  let competitorSavings := Num.sub originalPrice competitorPrice in
  let savingsGap := Num.sub competitorSavings partnerSavings in
  let threshold := Num.mul partnerSavings (Fin 0.40) in
  let showPartner := Num.le savingsGap threshold in
  {| partnerSavings := partnerSavings;
     competitorSavings := competitorSavings;
     savingsGap := savingsGap;
     threshold := Num.round threshold;
     showPartner := showPartner;
     explanation :=
       if showPartner
       then lit "Gap is small - showing profitable partner link"
       else lit "Gap is significant - showing fair competitor link" |}.

(** ** String primitives used by the code *)

(** [s.indexOf(c)] for a one-unit pattern; [None] stands for [-1]. *)
Fixpoint indexOf (s : jsstring) (c : N) : option nat :=
  match s with
  | [] => None
  | x :: t =>
      if N.eqb x c then Some O
      else match indexOf t c with
           | Some i => Some (S i)
           | None => None
           end
  end.

(** [s.lastIndexOf(c)]. *)
Fixpoint lastIndexOf (s : jsstring) (c : N) : option nat :=
  match s with
  | [] => None
  | x :: t =>
      match lastIndexOf t c with
      | Some i => Some (S i)
      | None => if N.eqb x c then Some O else None
      end
  end.

(** [s.slice(from, to)] for indices that are not negative. *)
Definition slice (s : jsstring) (from to : nat) : jsstring :=
  skipn from (firstn to s).

Fixpoint startsWith (s p : jsstring) : bool :=
  match p, s with
  | [], _ => true
  | _ :: _, [] => false
  | a :: p', b :: s' => N.eqb a b && startsWith s' p'
  end.

(** [s.includes(p)]. *)
Fixpoint includes (s p : jsstring) : bool :=
  startsWith s p ||
  match s with
  | [] => false
  | _ :: t => includes t p
  end.

(** [s.replace(/-/g, '/')]. *)
Definition dashes_to_slashes (s : jsstring) : jsstring :=
  List.map (fun c => if N.eqb c 45 then 47%N else c) s.

(** [s.replace(/[^a-z]/g, '')]. *)
Definition only_a_to_z (s : jsstring) : jsstring :=
  List.filter (fun c => N.leb 97 c && N.leb c 122) s.

(** *** [encodeURIComponent] *)

Definition is_high_surrogate (c : N) : bool := N.leb 55296 c && N.leb c 56319.
Definition is_low_surrogate (c : N) : bool := N.leb 56320 c && N.leb c 57343.

(** The characters that are copied as they are: letters, digits and
    [- _ . ! ~ * ' ( )]. *)
Definition uri_unreserved (c : N) : bool :=
  (N.leb 65 c && N.leb c 90) || (N.leb 97 c && N.leb c 122) ||
  (N.leb 48 c && N.leb c 57) ||
  existsb (N.eqb c) [45; 95; 46; 33; 126; 42; 39; 40; 41]%N.

(** The upper-case hexadecimal digit of [d mod 16]. *)
Definition hex_digit (d : N) : N :=
  if N.ltb (d mod 16) 10 then (48 + d mod 16)%N else (55 + d mod 16)%N.

(** [%XY] for a byte. *)
Definition percent (byte : N) : jsstring :=
  [37%N; hex_digit (byte / 16); hex_digit byte].

Definition utf8 (cp : N) : list N :=
  if N.ltb cp 128 then [cp]
  else if N.ltb cp 2048 then [192 + cp / 64; 128 + cp mod 64]%N
  else if N.ltb cp 65536 then
    [224 + cp / 4096; 128 + (cp / 64) mod 64; 128 + cp mod 64]%N
  else
    [240 + cp / 262144; 128 + (cp / 4096) mod 64;
     128 + (cp / 64) mod 64; 128 + cp mod 64]%N.

Definition escape (cp : N) : jsstring := List.concat (List.map percent (utf8 cp)).

(** [None] is the [URIError] that the built-in throws on a surrogate that
    has no partner. *)
Fixpoint encodeURIComponent (s : jsstring) : option jsstring :=
  match s with
  | [] => Some []
  | c :: rest =>
      if uri_unreserved c then option_map (cons c) (encodeURIComponent rest)
      else if is_low_surrogate c then None
      else if is_high_surrogate c then
        match rest with
        | d :: rest' =>
            if is_low_surrogate d
            then option_map
                   (app (escape ((c - 55296) * 1024 + (d - 56320) + 65536)))
                   (encodeURIComponent rest')
            else None
        | [] => None
        end
      else option_map (app (escape c)) (encodeURIComponent rest)
  end.

(** A string on which [encodeURIComponent] does not throw. *)
Definition well_formed (s : jsstring) : Prop := encodeURIComponent s <> None.

(** A string without any surrogate. *)
Definition no_surrogate (s : jsstring) : bool :=
  forallb (fun c => negb (is_low_surrogate c) && negb (is_high_surrogate c)) s.

(** ** Effects: [Math.random], the call log and exceptions *)

Inductive error : Type :=
| TypeError
| URIError
| SyntaxError
| RequestError        (* axios rejects: timeout, network failure, non-2xx *)
| NoResultError       (* 'No result from Gemini API' *)
| NoJsonError.        (* 'No valid JSON found in Gemini response' *)

(** The functions of the file whose invocation is recorded. *)
Inductive fn : Type :=
| F_apply40PercentRule
| F_generateAffiliateLink
| F_generateDirectLink.

Record world : Type := {
  draws : nat -> Q;     (* the successive results of Math.random() *)
  cursor : nat;         (* how many have been consumed *)
  calls : list fn       (* most recent first *)
}.

Inductive outcome (A : Type) : Type :=
| Ok (a : A)
| Throw (e : error).
Arguments Ok {A} a.
Arguments Throw {A} e.

Definition M (A : Type) : Type := world -> outcome A * world.

Definition ret {A} (a : A) : M A := fun w => (Ok a, w).

Definition throw {A} (e : error) : M A := fun w => (Throw e, w).

Definition bind {A B} (c : M A) (k : A -> M B) : M B :=
  fun w =>
    match c w with
    | (Ok a, w') => k a w'
    | (Throw e, w') => (Throw e, w')
    end.

(** [try { c } catch (e) { h e }]. *)
Definition try_catch {A} (c : M A) (h : error -> M A) : M A :=
  fun w =>
    match c w with
    | (Ok a, w') => (Ok a, w')
    | (Throw e, w') => h e w'
    end.

Definition lift {A} (o : outcome A) : M A := fun w => (o, w).

(** The world after one draw. *)
Definition tick (w : world) : world :=
  {| draws := draws w; cursor := S (cursor w); calls := calls w |}.

Definition Math_random : M Q :=
  fun w => (Ok (draws w (cursor w)), tick w).

(** The world after [f] has been entered. *)
Definition logged (f : fn) (w : world) : world :=
  {| draws := draws w; cursor := cursor w; calls := f :: calls w |}.

Definition enter (f : fn) : M unit :=
  fun w => (Ok tt, logged f w).

Notation "x <- c ;; k" := (bind c (fun x => k))
  (at level 61, c at next level, right associativity).
Notation "c ;;; k" := (bind c (fun _ => k))
  (at level 61, right associativity).

(** [Math.random] returns a value of [0, 1). *)
Definition fair (w : world) : Prop := forall i, 0 <= draws w i /\ draws w i < 1.

(** ** Data *)

(** The [price] property of the object that [JSON.parse] returns: missing,
    [null], or any other value, which is kept as the number that [isNaN] and
    [Number] coerce it to (a number is coerced to itself). *)
Inductive raw_price : Type :=
| Absent
| Null
| Value (to_number : number).

(** The parsed object.  [j_site] and [j_direct_link] are [None] when the
    property is not a string, [j_partnerId] when it is missing or [null];
    [j_conditions_match] is the truthiness of the property. *)
Record gemini_json : Type := {
  j_site : option jsstring;
  j_price : raw_price;
  j_partnerId : option jsstring;
  j_conditions_match : bool;
  j_direct_link : option jsstring
}.

(** The result object of a pass; [price = None] is [null]. *)
Record offer : Type := {
  site : option jsstring;
  price : option number;
  partnerId : option jsstring;
  conditions_match : bool;
  direct_link : option jsstring
}.

Definition set_price (o : offer) (p : number) : offer :=
  {| site := site o; price := Some p; partnerId := partnerId o;
     conditions_match := conditions_match o; direct_link := direct_link o |}.

Definition set_partnerId (o : offer) (id : jsstring) : offer :=
  {| site := site o; price := price o; partnerId := Some id;
     conditions_match := conditions_match o; direct_link := direct_link o |}.

(** The number that a [price] denotes in arithmetic and comparisons:
    [null] is coerced to [0]. *)
Definition price_number (p : option number) : number :=
  match p with
  | Some n => n
  | None => Fin 0
  end.

(** What the external service did with the prompt of a pass: the request
    failed, or it answered and
    [response.data?.candidates?.[0]?.content?.parts?.[0]?.text] is [text]. *)
Inductive reply : Type :=
| Failed
| Replied (text : option jsstring).

(** [arr[i]]: [undefined] unless [i] is an index of the array. *)
Definition array_get {A} (arr : list A) (i : number) : option A :=
  match i with
  | Fin q =>
      let z := Qfloor q in
      if Qeq_bool q (inject_Z z) && (0 <=? z)%Z
      then nth_error arr (Z.to_nat z)
      else None
  | _ => None
  end.

Record partner : Type := {
  partner_name : jsstring;
  cjId : jsstring;
  baseUrl : jsstring
}.

Definition APPROVED_PARTNERS : list (jsstring * partner) :=
  [ (lit "hotels_com",
     {| partner_name := lit "Hotels.com"; cjId := lit "1702763";
        baseUrl := lit "https://www.anrdoezrs.net/click-1702763-15042852" |});
    (lit "address_hotels",
     {| partner_name := lit "Address Hotels"; cjId := lit "7280686";
        baseUrl := lit "https://www.anrdoezrs.net/click-7280686-15042852" |});
    (lit "mytrip",
     {| partner_name := lit "MyTrip"; cjId := lit "7122258";
        baseUrl := lit "https://www.anrdoezrs.net/click-7122258-15042852" |}) ].

(** [APPROVED_PARTNERS[id]] on the catalog's own keys.  (A key inherited
    from [Object.prototype] is truthy in the source and reaches the
    [default] case of the [switch], which is the branch taken here for a
    key that is not found.) *)
Fixpoint lookup_partner (cat : list (jsstring * partner)) (id : jsstring)
  : option partner :=
  match cat with
  | [] => None
  | (k, p) :: rest => if str_eqb k id then Some p else lookup_partner rest id
  end.

(** [APPROVED_PARTNERS[result.partnerId]]; a missing identifier is not a key
    of the catalog. *)
Definition find_partner (id : option jsstring) : option partner :=
  match id with
  | Some i => lookup_partner APPROVED_PARTNERS i
  | None => None
  end.

(** [id === k] for a string literal [k]. *)
Definition id_is (id : option jsstring) (k : jsstring) : bool :=
  match id with
  | Some i => str_eqb i k
  | None => false
  end.

Record booking : Type := {
  hotel_name : option jsstring;
  check_in_date : option jsstring;
  check_out_date : option jsstring;
  original_price : number
}.

Inductive status : Type :=
| SAVINGS_FOUND_PARTNER
| SAVINGS_FOUND_COMPETITOR.

Record business_logic : Type := {
  bl_original_price : number;
  bl_partner_price : number;
  bl_competitor_price : number;
  bl_partner_savings : number;
  bl_competitor_savings : number;
  bl_savings_gap : number;
  bl_threshold_40_percent : number;
  bl_decision_is_partner : bool
}.

Record savings : Type := {
  r_status : status;
  r_savings : number;
  r_newPrice : number;
  r_provider : option jsstring;
  r_rule_applied : jsstring;
  r_is_affiliate : bool;
  r_conditions_match : bool;
  r_conditions_warning : bool;
  r_business_logic : business_logic;
  r_affiliateLink : option jsstring;
  r_directLink : option jsstring
}.

(** The three bodies that the handler can send. *)
Inductive response : Type :=
| NO_SAVINGS_FOUND (original : number)
| SAVINGS_FOUND (body : savings)
| ERROR (e : error).

(** The link that a response carries, if any. *)
Definition response_link (r : response) : option jsstring :=
  match r with
  | SAVINGS_FOUND b =>
      match r_affiliateLink b with
      | Some l => Some l
      | None => r_directLink b
      end
  | _ => None
  end.

(** ** The host *)

Class Host : Type := {
  (** [JSON.parse]; [None] is a [SyntaxError]. *)
  JSON_parse : jsstring -> option gemini_json;
  (** [String.prototype.toLowerCase]. *)
  toLowerCase : jsstring -> jsstring;
  (** The [YYYY-MM-DD] prefix of [toISOString()] for the day that is the
      given number of days after [new Date()]. *)
  date_after : nat -> jsstring
}.

Section Server.

Context {host : Host}.

Definition getDefaultCheckIn : jsstring := date_after 1.
Definition getDefaultCheckOut : jsstring := date_after 2.

(** ** Acquisition *)

(** The price of the parsed object as [callGeminiWithWebSearch] leaves it:
    [null] when it is [null], [undefined] or coerces to [NaN], its coercion
    to a number otherwise. *)
Definition valid_price (p : raw_price) : option number :=
  match p with
  | Absent | Null => None
  | Value NaN => None
  | Value n => Some n
  end.

Definition callGeminiWithWebSearch (r : reply) : outcome offer :=
  match r with
  | Failed => Throw RequestError
  | Replied text =>
      if negb (truthy text) then Throw NoResultError
      else
        let resultText := or_else text [] in
        match indexOf resultText 123, lastIndexOf resultText 125 with
        | Some jsonStart, Some jsonEnd =>
            let jsonStr := slice resultText jsonStart (jsonEnd + 1) in
            match JSON_parse jsonStr with
            | None => Throw SyntaxError
            | Some result =>
                Ok {| site := j_site result;
                      price := valid_price (j_price result);
                      partnerId := j_partnerId result;
                      conditions_match := j_conditions_match result;
                      direct_link := j_direct_link result |}
            end
        | _, _ => Throw NoJsonError
        end
  end.

Definition fallbackSites : list jsstring :=
  [lit "Expedia"; lit "Agoda"; lit "Priceline"; lit "Trivago"].

(** The [catch] block of [performBroadSearchWithGemini]. *)
Definition broadFallback : M offer :=
  r1 <- Math_random ;;
  let fallbackPrice :=
    Num.add (Num.floor (Num.mul (Fin r1) (Fin 800))) (Fin 3200) in
  r2 <- Math_random ;;
  let fallbackSite :=
    array_get fallbackSites
      (Num.floor (Num.mul (Fin r2) (Num.of_Z (Z.of_nat (List.length fallbackSites))))) in
  ret {| site := fallbackSite;
         price := Some fallbackPrice;
         partnerId := None;
         conditions_match := false;
         direct_link := None |}.

Definition performBroadSearchWithGemini (r : reply) : M offer :=
  try_catch (lift (callGeminiWithWebSearch r)) (fun _ => broadFallback).

(** The identifier given to a partner result that has none. *)
Definition inferPartnerId (site : jsstring) : jsstring :=
  if includes (toLowerCase site) (lit "hotels") then lit "hotels_com"
  else if includes (toLowerCase site) (lit "mytrip") then lit "mytrip"
  else if includes (toLowerCase site) (lit "address") then lit "address_hotels"
  else lit "hotels_com".

Definition partnerOptions : list (jsstring * jsstring) :=
  [ (lit "Hotels.com", lit "hotels_com");
    (lit "MyTrip", lit "mytrip");
    (lit "Address Hotels", lit "address_hotels") ].

(** The [catch] block of [performPartnerSearchWithGemini]. *)
Definition partnerFallback : M offer :=
  r1 <- Math_random ;;
  let chosen :=
    array_get partnerOptions
      (Num.floor (Num.mul (Fin r1) (Num.of_Z (Z.of_nat (List.length partnerOptions))))) in
  r2 <- Math_random ;;
  let fallbackPrice :=
    Num.add (Num.floor (Num.mul (Fin r2) (Fin 600))) (Fin 3400) in
  match chosen with
  | None => throw TypeError
  | Some (chosen_site, chosen_partnerId) =>
      ret {| site := Some chosen_site;
             price := Some fallbackPrice;
             partnerId := Some chosen_partnerId;
             conditions_match := false;
             direct_link := None |}
  end.

Definition performPartnerSearchWithGemini (r : reply) : M offer :=
  try_catch
    (result <- lift (callGeminiWithWebSearch r) ;;
     if negb (truthy (partnerId result))
     then match site result with
          | None => throw TypeError
          | Some s => ret (set_partnerId result (inferPartnerId s))
          end
     else ret result)
    (fun _ => partnerFallback).

(** ** Price repair

    The two [if] statements that follow each pass in the handler; they
    differ between the passes by their four constants only. *)
Definition repairPrice (base1 span1 base2 span2 : Q)
           (original_price : number) (result : offer) : M offer :=
  result1 <-
    match price result with
    | None =>
        r <- Math_random ;;
        ret (set_price result
               (Num.floor (Num.mul original_price
                  (Num.add (Fin base1) (Num.mul (Fin r) (Fin span1))))))
    | Some _ => ret result
    end ;;
  if Num.lt (price_number (price result1)) (Num.mul original_price (Fin 0.3))
  then
    r <- Math_random ;;
    ret (set_price result1
           (Num.floor (Num.mul original_price
              (Num.add (Fin base2) (Num.mul (Fin r) (Fin span2))))))
  else ret result1.

Definition repairBroadPrice : number -> offer -> M offer :=
  repairPrice 0.85 0.10 0.70 0.15.

Definition repairPartnerPrice : number -> offer -> M offer :=
  repairPrice 0.88 0.07 0.75 0.15.

(** [SEARCH A (Broad)]: the pass and the repair of its price. *)
Definition searchA (original_price : number) (broadReply : reply) : M offer :=
  found <- performBroadSearchWithGemini broadReply ;;
  repairBroadPrice original_price found.

(** [SEARCH B (Partner-Focused)]: the pass and the repair of its price. *)
Definition searchB (original_price : number) (partnerReply : reply) : M offer :=
  found <- performPartnerSearchWithGemini partnerReply ;;
  repairPartnerPrice original_price found.

(** ** Links *)

Definition encode (s : jsstring) : M jsstring :=
  match encodeURIComponent s with
  | Some t => ret t
  | None => throw URIError
  end.

(** [result.site.toLowerCase()]. *)
Definition site_lower (result : offer) : M jsstring :=
  match site result with
  | Some s => ret (toLowerCase s)
  | None => throw TypeError
  end.

Definition quote : jsstring := [34%N].

Definition generateDirectLink (result : offer)
           (hotelName checkIn checkOut : option jsstring) : M jsstring :=
  enter F_generateDirectLink ;;;
  hotelSearch <- encode (or_else hotelName (lit "hotel")) ;;
  let checkin := or_else checkIn getDefaultCheckIn in
  let checkout := or_else checkOut getDefaultCheckOut in
  let checkinFormatted := dashes_to_slashes checkin in
  let checkoutFormatted := dashes_to_slashes checkout in
  key <- site_lower result ;;
  if str_eqb key (lit "expedia") then
    ret (lit "https://www.expedia.com/Hotel-Search?destination=" ++ hotelSearch
         ++ lit "&startDate=" ++ checkinFormatted
         ++ lit "&endDate=" ++ checkoutFormatted ++ lit "&rooms=1&adults=2")
  else if str_eqb key (lit "agoda") then
    ret (lit "https://www.agoda.com/search?city=" ++ hotelSearch
         ++ lit "&checkIn=" ++ checkin ++ lit "&checkOut=" ++ checkout
         ++ lit "&rooms=1&adults=2")
  else if str_eqb key (lit "priceline") then
    ret (lit "https://www.priceline.com/relax/at/" ++ hotelSearch
         ++ lit "/" ++ checkin ++ lit "/" ++ checkout ++ lit "/1-rooms-2-adults")
  else if str_eqb key (lit "booking.com") || str_eqb key (lit "booking") then
    ret (lit "https://www.booking.com/searchresults.html?ss=" ++ hotelSearch
         ++ lit "&checkin=" ++ checkin ++ lit "&checkout=" ++ checkout
         ++ lit "&no_rooms=1&group_adults=2")
  else if str_eqb key (lit "trivago") then
    ret (lit "https://www.trivago.com/search?query=" ++ hotelSearch
         ++ lit "&checkin=" ++ checkin ++ lit "&checkout=" ++ checkout
         ++ lit "&adults=2&rooms=1")
  else if str_eqb key (lit "kayak") then
    ret (lit "https://www.kayak.com/hotels/" ++ hotelSearch
         ++ lit "/" ++ checkin ++ lit "/" ++ checkout ++ lit "/2adults")
  else if str_eqb key (lit "hotels.com") then
    hotelEncoded <- encode hotelSearch ;;
    ret (lit "https://www.hotels.com/search.do?q-destination=" ++ hotelEncoded
         ++ lit "&q-check-in=" ++ checkin ++ lit "&q-check-out=" ++ checkout
         ++ lit "&q-rooms=1&q-room-0-adults=2&q-room-0-children=0")
  else
    ret (lit "https://www.google.com/search?q=" ++ quote ++ hotelSearch ++ quote
         ++ lit "+hotel+booking+" ++ checkin ++ lit "+" ++ checkout
         ++ lit "+site:" ++ only_a_to_z key ++ lit ".com").

Definition generateAffiliateLink (partnerResult : offer)
           (hotelName checkIn checkOut : option jsstring) : M jsstring :=
  enter F_generateAffiliateLink ;;;
  match find_partner (partnerId partnerResult) with
  | None => generateDirectLink partnerResult hotelName checkIn checkOut
  | Some partner =>
      hotelSearch <- encode (or_else hotelName (lit "hotel")) ;;
      let checkin := or_else checkIn getDefaultCheckIn in
      let checkout := or_else checkOut getDefaultCheckOut in
      let id := partnerId partnerResult in
      if id_is id (lit "hotels_com") then
        wrapped <- encode
          (lit "https://www.hotels.com/search.do?destination=" ++ hotelSearch
           ++ lit "&startDate=" ++ checkin ++ lit "&endDate=" ++ checkout
           ++ lit "&locale=he_IL") ;;
        ret (baseUrl partner ++ lit "?url=" ++ wrapped)
      else if id_is id (lit "address_hotels") then
        wrapped <- encode
          (lit "https://www.addresshotels.com/hotels?destination=" ++ hotelSearch
           ++ lit "&checkin=" ++ checkin ++ lit "&checkout=" ++ checkout) ;;
        ret (baseUrl partner ++ lit "?url=" ++ wrapped)
      else if id_is id (lit "mytrip") then
        wrapped <- encode
          (lit "https://www.mytrip.com/hotels?destination=" ++ hotelSearch
           ++ lit "&checkin=" ++ checkin ++ lit "&checkout=" ++ checkout) ;;
        ret (baseUrl partner ++ lit "?url=" ++ wrapped)
      else generateDirectLink partnerResult hotelName checkIn checkOut
  end.

(** ** The handler of [POST /api/search]

    [broadReply] and [partnerReply] are what the external service does with
    the prompts of the two passes.  The currency and the three booking
    conditions are only echoed or put in the prompts; they are left out. *)
Definition search (b : booking) (broadReply partnerReply : reply) : M response :=
  let hotel_name := hotel_name b in
  let check_in_date := check_in_date b in
  let check_out_date := check_out_date b in
  let original_price := original_price b in
  try_catch
    (broadSearchResults <- searchA original_price broadReply ;;
     partnerSearchResults <- searchB original_price partnerReply ;;
     let partner_price := price_number (price partnerSearchResults) in
     let broad_price := price_number (price broadSearchResults) in
     if Num.ge partner_price original_price && Num.ge broad_price original_price
     then ret (NO_SAVINGS_FOUND original_price)
     else
       enter F_apply40PercentRule ;;;
       let decision := apply40PercentRule original_price partner_price broad_price in
       let chosenResult :=
         if showPartner decision then partnerSearchResults else broadSearchResults in
       link <-
         match direct_link chosenResult, conditions_match chosenResult with
         | Some (c :: l), true => ret (c :: l)
         | _, _ =>
             if showPartner decision
             then generateAffiliateLink partnerSearchResults
                    hotel_name check_in_date check_out_date
             else generateDirectLink broadSearchResults
                    hotel_name check_in_date check_out_date
         end ;;
       let finalSavings :=
         Num.sub original_price (price_number (price chosenResult)) in
       ret (SAVINGS_FOUND
              {| r_status := if showPartner decision
                             then SAVINGS_FOUND_PARTNER
                             else SAVINGS_FOUND_COMPETITOR;
                 r_savings := finalSavings;
                 r_newPrice := price_number (price chosenResult);
                 r_provider := site chosenResult;
                 r_rule_applied := explanation decision;
                 r_is_affiliate := showPartner decision;
                 r_conditions_match := conditions_match chosenResult;
                 r_conditions_warning := negb (conditions_match chosenResult);
                 r_business_logic :=
                   {| bl_original_price := original_price;
                      bl_partner_price := partner_price;
                      bl_competitor_price := broad_price;
                      bl_partner_savings := partnerSavings decision;
                      bl_competitor_savings := competitorSavings decision;
                      bl_savings_gap := savingsGap decision;
                      bl_threshold_40_percent := threshold decision;
                      bl_decision_is_partner := showPartner decision |};
                 r_affiliateLink := if showPartner decision then Some link else None;
                 r_directLink := if showPartner decision then None else Some link |}))
    (fun e => ret (ERROR e)).

End Server.

(** ** A host to run the definitions on

    Lower-casing of the ASCII letters, which is what [toLowerCase] does on
    an ASCII string; a given parser; a fixed day. *)

Definition ascii_lower (c : N) : N :=
  if N.leb 65 c && N.leb c 90 then (c + 32)%N else c.

Definition host_with (parse : jsstring -> option gemini_json) : Host :=
  {| JSON_parse := parse;
     toLowerCase := List.map ascii_lower;
     date_after := fun n =>
       match n with
       | 1%nat => lit "2026-11-03"
       | 2%nat => lit "2026-11-04"
       | _ => lit "2026-11-02"
       end |}.

(** A host whose parser rejects every text. *)
Definition plain_host : Host := host_with (fun _ => None).

(** A host whose parser returns the same object for every text. *)
Definition host_returning (parsed : gemini_json) : Host :=
  host_with (fun _ => Some parsed).

(** A source of draws that always returns the same value. *)
Definition constant_world (r : Q) : world :=
  {| draws := fun _ => r; cursor := O; calls := [] |}.

(** ** Replies to run the handler on *)

(** A JSON string literal. *)
Definition quoted (s : string) : jsstring := quote ++ lit s ++ quote.

(** The partner offer of a scenario: Hotels.com at 3800 with matching
    conditions and a direct link. *)
Definition partner_text : jsstring :=
  lit "Best partner deal: {" ++ quoted "site" ++ lit ": " ++ quoted "Hotels.com"
  ++ lit ", " ++ quoted "price" ++ lit ": 3800, "
  ++ quoted "partnerId" ++ lit ": " ++ quoted "hotels_com" ++ lit ", "
  ++ quoted "conditions_match" ++ lit ": true, "
  ++ quoted "direct_link" ++ lit ": " ++ quoted "https://www.hotels.com/ho4711"
  ++ lit "}".

Definition partner_json : gemini_json :=
  {| j_site := Some (lit "Hotels.com");
     j_price := Value (Fin 3800);
     j_partnerId := Some (lit "hotels_com");
     j_conditions_match := true;
     j_direct_link := Some (lit "https://www.hotels.com/ho4711") |}.

(** The broad offer of the scenario: Expedia at 3900. *)
Definition broad_text : jsstring :=
  lit "{" ++ quoted "site" ++ lit ": " ++ quoted "Expedia"
  ++ lit ", " ++ quoted "price" ++ lit ": 3900, "
  ++ quoted "conditions_match" ++ lit ": true, "
  ++ quoted "direct_link" ++ lit ": " ++ quoted "https://www.expedia.com/h77"
  ++ lit "}".

Definition broad_json : gemini_json :=
  {| j_site := Some (lit "Expedia");
     j_price := Value (Fin 3900);
     j_partnerId := None;
     j_conditions_match := true;
     j_direct_link := Some (lit "https://www.expedia.com/h77") |}.

(** A host that parses these two texts, and no other. *)
Definition scenario_host : Host :=
  host_with (fun s =>
               if str_eqb s (skipn 19 partner_text) then Some partner_json
               else if str_eqb s broad_text then Some broad_json
               else None).

Definition scenario_booking : booking :=
  {| hotel_name := Some (lit "Dan Tel Aviv");
     check_in_date := Some (lit "2026-12-01");
     check_out_date := Some (lit "2026-12-03");
     original_price := Fin 4000 |}.

(** A reply whose price is the JSON number 1e999, which [JSON.parse] reads
    as [Infinity]. *)
Definition overflow_text : jsstring :=
  lit "{" ++ quoted "site" ++ lit ": " ++ quoted "Agoda"
  ++ lit ", " ++ quoted "price" ++ lit ": 1e999}".

Definition overflow_json : gemini_json :=
  {| j_site := Some (lit "Agoda");
     j_price := Value PosInf;
     j_partnerId := None;
     j_conditions_match := false;
     j_direct_link := None |}.

(** A partner reply without identifier. *)
Definition address_text : jsstring :=
  lit "{" ++ quoted "site" ++ lit ": " ++ quoted "Address Hotels"
  ++ lit ", " ++ quoted "price" ++ lit ": 3700}".

Definition address_json : gemini_json :=
  {| j_site := Some (lit "Address Hotels");
     j_price := Value (Fin 3700);
     j_partnerId := None;
     j_conditions_match := false;
     j_direct_link := None |}.

(** ** Vocabulary of the statements *)

(** [v] is [Math.floor (original * f)] for a fraction [f] of the band
    [lo, hi]. *)
Definition floored_in_band (lo hi original : Q) (v : number) : Prop :=
  exists f : Q, lo <= f /\ f <= hi /\ v = Fin (inject_Z (Qfloor (original * f))).

(** The computation [c], run in [w], returns an offer whose price is such a
    value. *)
Definition repaired_in_band (c : M offer) (w : world) (lo hi original : Q) : Prop :=
  exists (o : offer) (w' : world) (v : number),
    c w = (Ok o, w') /\ price o = Some v /\ floored_in_band lo hi original v.

(** A finite integer of the interval [lo, hi). *)
Definition integer_in (lo hi : Q) (v : number) : Prop :=
  exists x : Q, v = Fin x /\ lo <= x /\ x < hi /\ x == inject_Z (Qfloor x).

(** The offer that a pass makes up when its call fails: an integer price of
    [lo, hi), no claim that the conditions match, no direct link. *)
Definition synthetic_offer (lo hi : Q) (o : offer) : Prop :=
  (exists v : number, price o = Some v /\ integer_in lo hi v) /\
  conditions_match o = false /\
  direct_link o = None.

(** A price that is finite and not negative. *)
Definition finite_nonneg_price (o : offer) : Prop :=
  exists x : Q, price o = Some (Fin x) /\ 0 <= x.

(** The URL that [generateDirectLink] builds for a site it has no template
    for; [key] is the lower-cased site name. *)
Definition generic_search_url (hotelSearch checkin checkout key : jsstring)
  : jsstring :=
  lit "https://www.google.com/search?q=" ++ quote ++ hotelSearch ++ quote
  ++ lit "+hotel+booking+" ++ checkin ++ lit "+" ++ checkout
  ++ lit "+site:" ++ only_a_to_z key ++ lit ".com".

(** The site names that [generateDirectLink] has a template for. *)
Definition known_sites : list jsstring :=
  [lit "expedia"; lit "agoda"; lit "priceline"; lit "booking.com";
   lit "booking"; lit "trivago"; lit "kayak"; lit "hotels.com"].

Definition known_site (key : jsstring) : bool :=
  existsb (str_eqb key) known_sites.


(** ** Further vocabulary *)

Unset Implicit Arguments.

(** The units that [encodeURIComponent] can return: the ones it copies, and
    the percent sign. *)
Definition url_safe (c : N) : bool := uri_unreserved c || N.eqb c 37.

(** Every percent sign written as [%25]: what a second encoding does to
    the result of a first one. *)
Definition percent_again (t : jsstring) : jsstring :=
  flat_map (fun c => if N.eqb c 37 then lit "%25" else [c]) t.

Section HandlerSteps.

Context {host : Host}.

(** What [callGeminiWithWebSearch] makes of the object that the parser
    returns for [jsonStr]. *)
Definition parsed_as (jsonStr : jsstring) : outcome offer :=
  match JSON_parse jsonStr with
  | None => Throw SyntaxError
  | Some result =>
      Ok {| site := j_site result;
            price := valid_price (j_price result);
            partnerId := j_partnerId result;
            conditions_match := j_conditions_match result;
            direct_link := j_direct_link result |}
  end.

(** The step of the handler that picks the link. *)
Definition link_step (b : booking) (d : decision)
           (partnerSearchResults broadSearchResults : offer) : M jsstring :=
  match direct_link (if showPartner d then partnerSearchResults else broadSearchResults),
        conditions_match (if showPartner d then partnerSearchResults else broadSearchResults)
  with
  | Some (c :: l), true => ret (c :: l)
  | _, _ =>
      if showPartner d
      then generateAffiliateLink partnerSearchResults
             (hotel_name b) (check_in_date b) (check_out_date b)
      else generateDirectLink broadSearchResults
             (hotel_name b) (check_in_date b) (check_out_date b)
  end.

(** The body that the handler sends with a link. *)
Definition savings_body (b : booking) (d : decision)
           (partnerSearchResults broadSearchResults : offer) (link : jsstring)
  : savings :=
  let chosenResult :=
    if showPartner d then partnerSearchResults else broadSearchResults in
  {| r_status := if showPartner d
                 then SAVINGS_FOUND_PARTNER else SAVINGS_FOUND_COMPETITOR;
     r_savings := Num.sub (original_price b) (price_number (price chosenResult));
     r_newPrice := price_number (price chosenResult);
     r_provider := site chosenResult;
     r_rule_applied := explanation d;
     r_is_affiliate := showPartner d;
     r_conditions_match := conditions_match chosenResult;
     r_conditions_warning := negb (conditions_match chosenResult);
     r_business_logic :=
       {| bl_original_price := original_price b;
          bl_partner_price := price_number (price partnerSearchResults);
          bl_competitor_price := price_number (price broadSearchResults);
          bl_partner_savings := partnerSavings d;
          bl_competitor_savings := competitorSavings d;
          bl_savings_gap := savingsGap d;
          bl_threshold_40_percent := threshold d;
          bl_decision_is_partner := showPartner d |};
     r_affiliateLink := if showPartner d then Some link else None;
     r_directLink := if showPartner d then None else Some link |}.

End HandlerSteps.

(** ** The analysis of a document: [POST /api/analyze-file] *)

(** What [axios.post] does with a request: it rejects with an error that
    may carry the status of a response and a code, or it resolves, and
    [response.data?.candidates?.[0]?.content?.parts?.[0]?.text] is [text]. *)
Inductive axios_result : Type :=
| Rejected (status : option N) (code : option jsstring)
| Resolved (text : option jsstring).

(** The [parts] of the request: the prompt, with the document as inline
    data when it is an image. *)
Inductive request_parts : Type :=
| PromptOnly
| PromptAndInlineData (mime_type data : jsstring).

(** What the [catch] block of [analyzeFileWithGemini] looks at in the error
    it caught: an error of axios has a response status or a code; a
    [TypeError], a [SyntaxError] and the 'No valid JSON found' error have
    neither. *)
Inductive analysis_failure : Type :=
| AxiosFailure (status : option N) (code : option jsstring)
| OtherFailure.

(** The object literal of the [catch] block; its four [null] properties
    are left out. *)
Record fallback_booking : Type := {
  fb_hotel_name : jsstring;
  fb_check_in_date : jsstring;
  fb_check_out_date : jsstring;
  fb_original_price : number;
  fb_currency : jsstring;
  fb_room_type : jsstring;
  fb_num_rooms : number;
  fb_adults : number;
  fb_children : number;
  fb_status : jsstring
}.

(** What [analyzeFileWithGemini] returns: the parsed object, whose [status]
    has been set to "extracted_from_pdf", or the fallback booking. *)
Inductive analysis (object : Type) : Type :=
| Extracted (fields : object)
| Fallback (b : fallback_booking).
Arguments Extracted {object} fields.
Arguments Fallback {object} b.

(** The answer of the endpoint: the analysis, or status 500. *)
Inductive analysis_response (object : Type) : Type :=
| Analysed (a : analysis object)
| AnalysisError500.
Arguments Analysed {object} a.
Arguments AnalysisError500 {object}.

(** The parts that are sent for a content type. *)
Definition parts_for (content mime : jsstring) : request_parts :=
  if startsWith mime (lit "image/")
  then PromptAndInlineData mime content
  else PromptOnly.

Section Analysis.

Context {host : Host}.

(** The objects that [JSON.parse] returns here, and the parser. *)
Variable object : Type.
Variable JSON_parse_object : jsstring -> option object.

(** The external service. *)
Variable post : request_parts -> axios_result.

(** The [try] block. *)
Definition analysis_attempt (content : jsstring) (contentType : option jsstring)
  : analysis_failure + object :=
  match contentType with
  | None => inl OtherFailure
  | Some mime =>
      let parts := parts_for content mime in
      match post parts with
      | Rejected status code => inl (AxiosFailure status code)
      | Resolved None => inl OtherFailure
      | Resolved (Some text) =>
          match indexOf text 123, lastIndexOf text 125 with
          | Some jsonStart, Some jsonEnd =>
              match JSON_parse_object (slice text jsonStart (jsonEnd + 1)) with
              | Some result => inr result
              | None => inl OtherFailure
              end
          | _, _ => inl OtherFailure
          end
      end
  end.

(** [error.response?.status === 503 || error.code === 'ECONNRESET']. *)
Definition temporarily_unavailable (f : analysis_failure) : bool :=
  match f with
  | AxiosFailure status code =>
      match status with
      | Some s => N.eqb s 503
      | None => false
      end
      || match code with
         | Some c => str_eqb c (lit "ECONNRESET")
         | None => false
         end
  | OtherFailure => false
  end.

Definition the_fallback_booking : fallback_booking :=
  {| fb_hotel_name :=
       [1502; 1500; 1493; 1503; 32; 40; 1500; 1488; 32; 1492; 1510; 1500;
        1495; 1504; 1493; 32; 1500; 1495; 1500; 1509; 32; 1488; 1514; 32;
        1492; 1513; 1501; 41]%N;
     fb_check_in_date := getDefaultCheckIn;
     fb_check_out_date := getDefaultCheckOut;
     fb_original_price := Fin 4000;
     fb_currency := lit "ILS";
     fb_room_type :=
       [1495; 1491; 1512; 32; 1505; 1496; 1504; 1491; 1512; 1496]%N;
     fb_num_rooms := Fin 1;
     fb_adults := Fin 2;
     fb_children := Fin 0;
     fb_status := lit "fallback_due_to_api_error" |}.

(** [None] is the error 'Failed to analyze file with Gemini'. *)
Definition analyzeFileWithGemini (content : jsstring)
           (contentType : option jsstring) : option (analysis object) :=
  match analysis_attempt content contentType with
  | inr result => Some (Extracted result)
  | inl failure =>
      if temporarily_unavailable failure
      then Some (Fallback the_fallback_booking)
      else None
  end.

(** The handler of the endpoint. *)
Definition analyze_file (content : jsstring) (contentType : option jsstring)
  : analysis_response object :=
  match analyzeFileWithGemini content contentType with
  | Some analysisResult => Analysed analysisResult
  | None => AnalysisError500
  end.

End Analysis.

(** ** Authentication: [verifyFirebaseToken] and the two endpoints behind it *)

(** [s.split(sep)] for a separator that is not empty.  [skip] counts the
    units of a separator that has just been found and are still to be
    passed; [cur] is the segment being read. *)
Fixpoint split_from (sep s : jsstring) (skip : nat) (cur : jsstring)
  : list jsstring :=
  match s with
  | [] => [cur]
  | c :: t =>
      match skip with
      | S k => split_from sep t k cur
      | O =>
          if startsWith s sep
          then cur :: split_from sep t (List.length sep - 1) []
          else split_from sep t O (cur ++ [c])
      end
  end.

Definition split (s sep : jsstring) : list jsstring := split_from sep s O [].

(** The decoded token: [uid] is what the endpoints read of it. *)
Record user : Type := { uid : jsstring }.

(** An object as the list of its properties, in their order. *)
Definition object_of (V : Type) : Type := list (jsstring * V).

Fixpoint get {V : Type} (o : object_of V) (k : jsstring) : option V :=
  match o with
  | [] => None
  | (k', v) :: rest => if str_eqb k' k then Some v else get rest k
  end.

(** A property written after the ones of [o]: it replaces the property of
    that name, at its place, or comes last. *)
Fixpoint set {V : Type} (o : object_of V) (k : jsstring) (v : V) : object_of V :=
  match o with
  | [] => [(k, v)]
  | (k', v') :: rest =>
      if str_eqb k' k then (k', v) :: rest else (k', v') :: set rest k v
  end.

(** [{...a, ...b}]. *)
Definition spread {V : Type} (a b : object_of V) : object_of V :=
  fold_left (fun o kv => set o (fst kv) (snd kv)) b a.

Inductive track_response : Type :=
| TrackUnauthorized401
| Tracked (trackingId : jsstring)
| TrackError500.

Inductive bookings_response (V : Type) : Type :=
| BookingsUnauthorized401
| Bookings (bookings : list (object_of V))
| BookingsError500.
Arguments BookingsUnauthorized401 {V}.
Arguments Bookings {V} bookings.
Arguments BookingsError500 {V}.

Section Authentication.

(** [admin.auth().verifyIdToken]; [None] when it rejects. *)
Variable verifyIdToken : jsstring -> option user.

(** [req.user] after the middleware; [authorization] is the header. *)
Definition verifyFirebaseToken (authorization : option jsstring) : option user :=
  if negb (truthy authorization) then None
  else
    let authHeader := or_else authorization [] in
    if negb (startsWith authHeader (lit "Bearer ")) then None
    else
      match nth_error (split authHeader (lit "Bearer ")) 1 with
      | Some idToken => verifyIdToken idToken
      | None => None
      end.

(** The values of the properties of a stored document, with the two that
    the server writes. *)
Variable V : Type.
Variable string_value : jsstring -> V.
Variable serverTimestamp : V.

(** [{...req.body.bookingData, userId: req.user.uid, createdAt: ...}]. *)
Definition trackingData (bookingData : object_of V) (u : user) : object_of V :=
  set (set (spread [] bookingData) (lit "userId") (string_value (uid u)))
      (lit "createdAt") serverTimestamp.

(** [db.collection('trackedBookings').add]: the identifier of the new
    document, or [None] when it fails. *)
Variable add : object_of V -> option jsstring.

Definition track (authorization : option jsstring) (bookingData : object_of V)
  : track_response :=
  match verifyFirebaseToken authorization with
  | None => TrackUnauthorized401
  | Some u =>
      match add (trackingData bookingData u) with
      | Some id => Tracked id
      | None => TrackError500
      end
  end.

(** The query of [/api/my-bookings] for a user: the documents found, each
    with its identifier, or [None] when it fails. *)
Variable tracked_by : jsstring -> option (list (jsstring * object_of V)).

(** [{id: doc.id, ...doc.data()}]. *)
Definition listed (doc : jsstring * object_of V) : object_of V :=
  spread [(lit "id", string_value (fst doc))] (snd doc).

Definition my_bookings (authorization : option jsstring) : bookings_response V :=
  match verifyFirebaseToken authorization with
  | None => BookingsUnauthorized401
  | Some u =>
      match tracked_by (uid u) with
      | Some docs => Bookings (List.map listed docs)
      | None => BookingsError500
      end
  end.

End Authentication.

(** ** Services and a verification to run these on *)

(** A service that answers with some prose around the object, and one that
    answers without any object. *)
Definition talkative (_ : request_parts) : axios_result :=
  Resolved (Some (lit "Here you go: " ++ [123%N] ++ lit "x" ++ [125%N] ++ lit " Bye")).

Definition silent (_ : request_parts) : axios_result :=
  Resolved (Some (lit "Sorry, I cannot read this file.")).

(** A verification that accepts one token. *)
Definition accepts_abc (t : jsstring) : option user :=
  if str_eqb t (lit "abc") then Some {| uid := lit "user-1" |} else None.

(** * Properties *)

Unset Implicit Arguments.

(** ** Arithmetic *)

Lemma Qlt_bool_iff (x y : Q) : Qlt_bool x y = true <-> x < y.
Proof.
  unfold Qlt_bool. rewrite negb_true_iff.
  split; intro H.
  - apply Qnot_le_lt. intro L. apply Qle_bool_iff in L. congruence.
  - destruct (Qle_bool y x) eqn:E; [|reflexivity].
    apply Qle_bool_iff in E. lra.
Qed.

Lemma Qlt_bool_false_iff (x y : Q) : Qlt_bool x y = false <-> y <= x.
Proof.
  unfold Qlt_bool. rewrite negb_false_iff. apply Qle_bool_iff.
Qed.

Lemma ge_not_lt (a b : number) : Num.ge a b = true -> Num.lt a b = false.
Proof.
  unfold Num.ge.
  destruct a, b; simpl; try congruence.
  intro H. unfold Qlt_bool. now rewrite H.
Qed.

Lemma Qfloor_nonneg (x : Q) : 0 <= x -> (0 <= Qfloor x)%Z.
Proof.
  intro H. change 0%Z with (Qfloor 0). now apply Qfloor_resp_le.
Qed.

Lemma Qfloor_unique (x : Q) (z : Z) :
  inject_Z z <= x -> x < inject_Z (z + 1) -> Qfloor x = z.
Proof.
  intros Hlo Hhi.
  pose proof (Qfloor_le x) as Fl. pose proof (Qlt_floor x) as Fh.
  assert (inject_Z z < inject_Z (Qfloor x + 1)) as A by lra.
  assert (inject_Z (Qfloor x) < inject_Z (z + 1)) as B by lra.
  rewrite <- Zlt_Qlt in A, B. lia.
Qed.

Lemma Qfloor_small (x : Q) : 0 <= x -> x < 1 -> Qfloor x = 0%Z.
Proof.
  intros Hlo Hhi. apply Qfloor_unique.
  - change (inject_Z 0) with 0. exact Hlo.
  - change (inject_Z (0 + 1)) with 1. exact Hhi.
Qed.

(** ** The fairness rule *)



(** C8: with the original and the partner price fixed, the savings gap does
    not increase when the competitor price increases; so [showPartner], once
    false at a competitor price, is false at every lower one, and once true
    it stays true at every higher one. *)
Theorem savingsGap_antitone_in_competitorPrice :
  forall o p c1 c2 : Q,
    c1 <= c2 ->
    let d1 := apply40PercentRule (Fin o) (Fin p) (Fin c1) in
    let d2 := apply40PercentRule (Fin o) (Fin p) (Fin c2) in
    Num.le (savingsGap d2) (savingsGap d1) = true /\
    (showPartner d1 = true -> showPartner d2 = true) /\
    (showPartner d2 = false -> showPartner d1 = false).
Proof.
  intros o p c1 c2 Hc d1 d2. subst d1 d2. unfold apply40PercentRule. simpl.
  assert (Qle_bool (o - c1 - (o - p)) ((o - p) * 0.40) = true ->
          Qle_bool (o - c2 - (o - p)) ((o - p) * 0.40) = true) as Mono.
  { rewrite !Qle_bool_iff. lra. }
  repeat split.
  - apply Qle_bool_iff. lra.
  - exact Mono.
  - intro F. destruct (Qle_bool (o - c1 - (o - p)) ((o - p) * 0.40)); [|reflexivity].
    rewrite Mono in F; congruence.
Qed.

Lemma savingsGap_antitone_in_competitorPrice_witness :
  3900 <= 3950 /\
  showPartner (apply40PercentRule (Fin 4000) (Fin 3800) (Fin 3950)) = true.
Proof.
  assert (3900 <= 3950) as Hc by lra.
  split; [exact Hc|].
  destruct (savingsGap_antitone_in_competitorPrice 4000 3800 3900 3950 Hc) as (_ & Keep & _).
  apply Keep. reflexivity.
Defined.

(** ** Price repair *)

Lemma fair_tick (w : world) : fair w -> fair (tick w).
Proof. intros F i. apply (F i). Qed.

Lemma draw_fraction (w : world) (base span : Q) :
  fair w -> 0 <= span ->
  base <= base + draws w (cursor w) * span /\
  base + draws w (cursor w) * span <= base + span.
Proof.
  intros F Hs. destruct (F (cursor w)) as [Lo Hi]. split; nra.
Qed.

(** What the two [if] statements compute on a price that is [null]. *)
Lemma repairPrice_null (b1 s1 b2 s2 : Q) (original : number) (result : offer)
      (w : world) :
  price result = None ->
  let v1 := Num.floor (Num.mul original
               (Num.add (Fin b1) (Num.mul (Fin (draws w (cursor w))) (Fin s1)))) in
  let v2 := Num.floor (Num.mul original
               (Num.add (Fin b2)
                  (Num.mul (Fin (draws (tick w) (cursor (tick w)))) (Fin s2)))) in
  repairPrice b1 s1 b2 s2 original result w =
  if Num.lt v1 (Num.mul original (Fin 0.3))
  then (Ok (set_price (set_price result v1) v2), tick (tick w))
  else (Ok (set_price result v1), tick w).
Proof.
  intros E v1 v2. unfold repairPrice. rewrite E.
  unfold bind, Math_random, ret. cbn [price set_price price_number].
  fold v1. destruct (Num.lt v1 (Num.mul original (Fin 0.3))); reflexivity.
Qed.

(** ... and on a price that is present. *)
Lemma repairPrice_present (b1 s1 b2 s2 : Q) (original p : number) (result : offer)
      (w : world) :
  price result = Some p ->
  repairPrice b1 s1 b2 s2 original result w =
  if Num.lt p (Num.mul original (Fin 0.3))
  then (Ok (set_price result
              (Num.floor (Num.mul original
                 (Num.add (Fin b2) (Num.mul (Fin (draws w (cursor w))) (Fin s2)))))),
        tick w)
  else (Ok result, w).
Proof.
  intros E. unfold repairPrice. rewrite E.
  unfold bind, Math_random, ret. rewrite E. cbn [price_number].
  destruct (Num.lt p (Num.mul original (Fin 0.3))); reflexivity.
Qed.

(** The second rule applied to the value that the first rule produced: the
    value can only have floored to 0, and what replaces it is still the
    floor of a fraction of the first band. *)
Lemma repairPrice_null_band (b1 s1 b2 s2 q : Q) (result : offer) (w : world) :
  0 <= q -> fair w -> price result = None ->
  0 <= s1 -> 0 <= s2 -> 0 <= b2 -> (3 # 5) <= b1 ->
  b2 + s2 <= b1 + s1 -> b1 + s1 <= 2 * (b1 - (3 # 10)) ->
  repaired_in_band (repairPrice b1 s1 b2 s2 (Fin q) result) w b1 (b1 + s1) q.
Proof.
  intros Hq F E Hs1 Hs2 Hb2 Hb1 Hband Hwide.
  unfold repaired_in_band. rewrite (repairPrice_null b1 s1 b2 s2 _ _ _ E).
  destruct (draw_fraction w b1 s1 F Hs1) as [F1lo F1hi].
  destruct (draw_fraction (tick w) b2 s2 (fair_tick w F) Hs2) as [F2lo F2hi].
  set (f1 := b1 + draws w (cursor w) * s1) in *.
  set (f2 := b2 + draws (tick w) (cursor (tick w)) * s2) in *.
  cbn [Num.floor Num.mul Num.add Num.lt]. fold f1 f2.
  destruct (Qlt_bool (inject_Z (Qfloor (q * f1))) (q * 0.3)) eqn:Low.
  - apply Qlt_bool_iff in Low.
    pose proof (Qlt_floor (q * f1)) as Up. rewrite inject_Z_plus in Up.
    change (inject_Z 1) with 1 in Up.
    assert (q * (b1 - (3 # 10)) < 1) as Small by nra.
    assert (0 <= q * f2) as P2 by nra.
    assert (q * f2 < 2) as U2 by nra.
    destruct (Qlt_le_dec (q * f2) 1) as [Lt1 | Ge1].
    + assert (0 <= q * f1) as P1 by nra.
      pose proof (Qfloor_nonneg _ P1) as Z1.
      assert (inject_Z (Qfloor (q * f1)) < inject_Z 1) as Z1' by
        (change (inject_Z 1) with 1; nra).
      rewrite <- Zlt_Qlt in Z1'.
      assert (Qfloor (q * f1) = 0%Z) as E1 by lia.
      exists (set_price (set_price result (Fin (inject_Z (Qfloor (q * f1)))))
                        (Fin (inject_Z (Qfloor (q * f2))))),
             (tick (tick w)), (Fin (inject_Z (Qfloor (q * f2)))).
      split; [reflexivity|]. split; [reflexivity|].
      exists f1. split; [exact F1lo|]. split; [exact F1hi|].
      rewrite E1. rewrite (Qfloor_small _ P2 Lt1). reflexivity.
    + exists (set_price (set_price result (Fin (inject_Z (Qfloor (q * f1)))))
                        (Fin (inject_Z (Qfloor (q * f2))))),
             (tick (tick w)), (Fin (inject_Z (Qfloor (q * f2)))).
      split; [reflexivity|]. split; [reflexivity|].
      exists (b1 + s1). split; [lra|]. split; [lra|].
      assert (Qfloor (q * f2) = 1%Z) as E2.
      { apply Qfloor_unique.
        - change (inject_Z 1) with 1. exact Ge1.
        - change (inject_Z (1 + 1)) with 2. exact U2. }
      assert (Qfloor (q * (b1 + s1)) = 1%Z) as E3.
      { apply Qfloor_unique.
        - change (inject_Z 1) with 1. nra.
        - change (inject_Z (1 + 1)) with 2. nra. }
      rewrite E2, E3. reflexivity.
  - exists (set_price result (Fin (inject_Z (Qfloor (q * f1))))), (tick w),
           (Fin (inject_Z (Qfloor (q * f1)))).
    split; [reflexivity|]. split; [reflexivity|].
    exists f1. split; [exact F1lo|]. split; [exact F1hi|]. reflexivity.
Qed.

Lemma repairPrice_low_band (b1 s1 b2 s2 q : Q) (p : number) (result : offer)
      (w : world) :
  fair w -> price result = Some p ->
  Num.lt p (Num.mul (Fin q) (Fin 0.3)) = true ->
  0 <= s2 ->
  repaired_in_band (repairPrice b1 s1 b2 s2 (Fin q) result) w b2 (b2 + s2) q.
Proof.
  intros F E Low Hs2.
  unfold repaired_in_band. rewrite (repairPrice_present b1 s1 b2 s2 _ _ _ _ E), Low.
  destruct (draw_fraction w b2 s2 F Hs2) as [Flo Fhi].
  eexists _, _, _. split; [reflexivity|]. split; [reflexivity|].
  exists (b2 + draws w (cursor w) * s2).
  split; [exact Flo|]. split; [exact Fhi|]. reflexivity.
Qed.

Lemma repaired_in_band_weaken (c : M offer) (w : world) (lo hi lo' hi' q : Q) :
  lo' <= lo -> hi <= hi' ->
  repaired_in_band c w lo hi q -> repaired_in_band c w lo' hi' q.
Proof.
  intros Hlo Hhi (o & w' & v & Run & Pr & f & Flo & Fhi & Ev).
  exists o, w', v. split; [exact Run|]. split; [exact Pr|].
  exists f. split; [lra|]. split; [lra|]. exact Ev.
Qed.

Lemma fair_constant_world (r : Q) : 0 <= r -> r < 1 -> fair (constant_world r).
Proof. intros Lo Hi i. simpl. split; assumption. Qed.





(** ** The passes *)

Lemma array_get_draw {A : Type} (arr : list A) (r : Q) :
  arr <> [] -> 0 <= r -> r < 1 ->
  exists a : A,
    array_get arr
      (Num.floor (Num.mul (Fin r) (Num.of_Z (Z.of_nat (List.length arr))))) = Some a /\
    In a arr.
Proof.
  intros NE Lo Hi.
  cbn [Num.floor Num.mul Num.of_Z]. unfold array_get.
  set (n := Z.of_nat (List.length arr)).
  set (k := Qfloor (r * inject_Z n)).
  assert (0 < n)%Z as Npos.
  { subst n. destruct arr; [congruence | simpl List.length; lia]. }
  assert (0 < inject_Z n) as NposQ.
  { change 0 with (inject_Z 0). now rewrite <- Zlt_Qlt. }
  assert (0 <= k)%Z as Klo by (apply Qfloor_nonneg; nra).
  assert (k < n)%Z as Khi.
  { rewrite Zlt_Qlt. pose proof (Qfloor_le (r * inject_Z n)) as Fl.
    fold k in Fl. nra. }
  rewrite Qfloor_Z, Qeq_bool_refl.
  destruct (Z.leb_spec 0 k) as [_ | Neg]; [|lia]. cbn [andb].
  destruct (nth_error arr (Z.to_nat k)) as [a|] eqn:Nth.
  - exists a. split; [reflexivity|]. eapply nth_error_In; eassumption.
  - apply nth_error_None in Nth. subst n. lia.
Qed.

Lemma fallback_price_range (r : Q) (n b : Z) :
  0 <= r -> r < 1 -> (0 < n)%Z ->
  integer_in (inject_Z b) (inject_Z (b + n))
    (Num.add (Num.floor (Num.mul (Fin r) (Fin (inject_Z n)))) (Fin (inject_Z b))).
Proof.
  intros Lo Hi Npos. cbn [Num.add Num.floor Num.mul].
  set (k := Qfloor (r * inject_Z n)).
  assert (0 < inject_Z n) as NposQ.
  { change 0 with (inject_Z 0). now rewrite <- Zlt_Qlt. }
  assert (0 <= k)%Z as Klo by (apply Qfloor_nonneg; nra).
  assert (k < n)%Z as Khi.
  { rewrite Zlt_Qlt. pose proof (Qfloor_le (r * inject_Z n)) as Fl.
    fold k in Fl. nra. }
  exists (inject_Z k + inject_Z b). split; [reflexivity|].
  rewrite Zle_Qle in Klo. rewrite Zlt_Qlt in Khi.
  change (inject_Z 0) with 0 in Klo.
  rewrite inject_Z_plus. split; [lra|]. split; [lra|].
  rewrite <- inject_Z_plus. now rewrite Qfloor_Z.
Qed.

Section Passes.

Context {host : Host}.

Lemma callGemini_price_is_a_number (r : reply) (o : offer) :
  callGeminiWithWebSearch r = Ok o -> price o <> Some NaN.
Proof.
  unfold callGeminiWithWebSearch.
  destruct r as [|text]; [discriminate|].
  destruct (negb (truthy text)); [discriminate|].
  destruct (indexOf _ _); [|discriminate].
  destruct (lastIndexOf _ _); [|discriminate].
  destruct (JSON_parse _) as [j|]; [|discriminate].
  intros [= <-]. cbn [price].
  destruct (j_price j) as [| | [| | |]]; cbn; congruence.
Qed.

Lemma broadFallback_spec (w : world) :
  fair w ->
  exists o : offer,
    broadFallback w = (Ok o, tick (tick w)) /\
    synthetic_offer 3200 4000 o /\
    exists s : jsstring, site o = Some s /\ In s fallbackSites.
Proof.
  intros F.
  destruct (F (cursor w)) as [Lo1 Hi1].
  destruct (F (cursor (tick w))) as [Lo2 Hi2]. cbn [tick draws] in Lo2, Hi2.
  destruct (array_get_draw fallbackSites (draws w (cursor (tick w)))) as (s & Get & Mem);
    [discriminate | assumption | assumption |].
  unfold broadFallback, bind, Math_random, ret. cbn [tick draws cursor] in *.
  rewrite Get.
  eexists. split; [reflexivity|]. split.
  - split; [|split; reflexivity].
    eexists. split; [reflexivity|].
    apply (fallback_price_range (draws w (cursor w)) 800 3200); [assumption .. | lia].
  - exists s. split; [reflexivity | exact Mem].
Qed.

Lemma partnerFallback_spec (w : world) :
  fair w ->
  exists o : offer,
    partnerFallback w = (Ok o, tick (tick w)) /\
    synthetic_offer 3400 4000 o /\
    exists s id : jsstring,
      site o = Some s /\ partnerId o = Some id /\ In (s, id) partnerOptions.
Proof.
  intros F.
  destruct (F (cursor w)) as [Lo1 Hi1].
  destruct (F (cursor (tick w))) as [Lo2 Hi2]. cbn [tick draws] in Lo2, Hi2.
  destruct (array_get_draw partnerOptions (draws w (cursor w))) as ([s id] & Get & Mem);
    [discriminate | assumption | assumption |].
  unfold partnerFallback, bind, Math_random, ret, throw. cbn [tick draws cursor] in *.
  rewrite Get.
  eexists. split; [reflexivity|]. split.
  - split; [|split; reflexivity].
    eexists. split; [reflexivity|].
    apply (fallback_price_range (draws w (S (cursor w))) 600 3400); [assumption .. | lia].
  - exists s, id. repeat split; try reflexivity. exact Mem.
Qed.

(** A pass returns: either what the call returned, up to the partner
    identifier, or the made-up offer. *)
Lemma performBroadSearch_cases (r : reply) (w : world) :
  fair w ->
  exists (o : offer) (w' : world),
    performBroadSearchWithGemini r w = (Ok o, w') /\ fair w' /\
    (callGeminiWithWebSearch r = Ok o \/ synthetic_offer 3200 4000 o).
Proof.
  intros F. unfold performBroadSearchWithGemini, try_catch, lift.
  destruct (callGeminiWithWebSearch r) as [o|e] eqn:Call.
  - exists o, w. auto.
  - destruct (broadFallback_spec w F) as (o & Run & Syn & _).
    exists o, (tick (tick w)). split; [exact Run|].
    split; [now do 2 apply fair_tick | now right].
Qed.

Lemma performPartnerSearch_cases (r : reply) (w : world) :
  fair w ->
  exists (o : offer) (w' : world),
    performPartnerSearchWithGemini r w = (Ok o, w') /\ fair w' /\
    ((exists o0 : offer, callGeminiWithWebSearch r = Ok o0 /\ price o = price o0) \/
     synthetic_offer 3400 4000 o).
Proof.
  intros F. unfold performPartnerSearchWithGemini, try_catch, bind, lift.
  destruct (partnerFallback_spec w F) as (fo & Run & Syn & _).
  destruct (callGeminiWithWebSearch r) as [o|e] eqn:Call.
  - destruct (negb (truthy (partnerId o))).
    + destruct (site o) as [s|]; unfold ret, throw.
      * eexists _, w. split; [reflexivity|]. split; [exact F|].
        left. exists o. split; reflexivity.
      * exists fo, (tick (tick w)). split; [exact Run|].
        split; [now do 2 apply fair_tick | now right].
    + unfold ret. exists o, w. split; [reflexivity|]. split; [exact F|].
      left. exists o. split; reflexivity.
  - exists fo, (tick (tick w)). split; [exact Run|].
    split; [now do 2 apply fair_tick | now right].
Qed.

End Passes.

Lemma band_is_finite_nonneg (lo hi q : Q) (v : number) :
  0 <= q -> 0 <= lo -> floored_in_band lo hi q v ->
  exists x : Q, v = Fin x /\ 0 <= x.
Proof.
  intros Hq Hlo (f & Flo & _ & ->).
  eexists. split; [reflexivity|].
  change 0 with (inject_Z 0). rewrite <- Zle_Qle.
  apply Qfloor_nonneg. nra.
Qed.

(** After the two [if] statements the price is finite and not negative,
    unless it was [+Infinity] before, which they leave. *)
Lemma repairPrice_outcome (b1 s1 b2 s2 q : Q) (o : offer) (w : world) :
  0 <= q -> fair w -> price o <> Some NaN ->
  0 <= s1 -> 0 <= s2 -> 0 <= b2 -> (3 # 5) <= b1 ->
  b2 + s2 <= b1 + s1 -> b1 + s1 <= 2 * (b1 - (3 # 10)) ->
  exists (o' : offer) (w' : world),
    repairPrice b1 s1 b2 s2 (Fin q) o w = (Ok o', w') /\
    (finite_nonneg_price o' \/ (price o' = Some PosInf /\ price o = Some PosInf)).
Proof.
  intros Hq F NotNaN Hs1 Hs2 Hb2 Hb1 Hband Hwide.
  destruct (price o) as [p|] eqn:E.
  - destruct (Num.lt p (Num.mul (Fin q) (Fin 0.3))) eqn:Low.
    + destruct (repairPrice_low_band b1 s1 b2 s2 q p o w F E Low Hs2)
        as (o' & w' & v & Run & Pr & Band).
      exists o', w'. split; [exact Run|]. left.
      destruct (band_is_finite_nonneg _ _ _ _ Hq Hb2 Band) as (x & -> & Pos).
      now exists x.
    + exists o, w. rewrite (repairPrice_present b1 s1 b2 s2 _ _ _ _ E), Low.
      split; [reflexivity|].
      destruct p as [| |x|]; cbn in Low; try congruence.
      * left. exists x. split; [exact E|].
        apply Qlt_bool_false_iff in Low. nra.
      * right. split; [exact E | reflexivity].
  - destruct (repairPrice_null_band b1 s1 b2 s2 q o w Hq F E Hs1 Hs2 Hb2 Hb1 Hband Hwide)
      as (o' & w' & v & Run & Pr & Band).
    exists o', w'. split; [exact Run|]. left.
    assert (0 <= b1) as Pb1 by lra.
    destruct (band_is_finite_nonneg _ _ _ _ Hq Pb1 Band) as (x & -> & Pos).
    now exists x.
Qed.

Section Claims.

Context {host : Host}.

(** C4, as the code has it: when the call of a pass fails, the pass returns
    normally an offer with an integer price of [3200, 4000) (broad) or
    [3400, 4000) (partner), conditions_match false and no direct link; the
    site is drawn from the four fallback sites on the broad pass and, on the
    partner pass too, drawn from a list: the three partners, each with its
    identifier. *)
Theorem failed_pass_returns_synthetic_offer :
  forall (r : reply) (e : error) (w : world),
    callGeminiWithWebSearch r = Throw e -> fair w ->
    (exists (o : offer) (w' : world),
        performBroadSearchWithGemini r w = (Ok o, w') /\
        synthetic_offer 3200 4000 o /\
        exists s : jsstring, site o = Some s /\ In s fallbackSites) /\
    (exists (o : offer) (w' : world),
        performPartnerSearchWithGemini r w = (Ok o, w') /\
        synthetic_offer 3400 4000 o /\
        exists s id : jsstring,
          site o = Some s /\ partnerId o = Some id /\ In (s, id) partnerOptions).
Proof.
  intros r e w Call F. split.
  - destruct (broadFallback_spec w F) as (o & Run & Syn & Site).
    exists o, (tick (tick w)).
    unfold performBroadSearchWithGemini, try_catch, lift. rewrite Call.
    auto.
  - destruct (partnerFallback_spec w F) as (o & Run & Syn & Site).
    exists o, (tick (tick w)).
    unfold performPartnerSearchWithGemini, try_catch, bind, lift. rewrite Call.
    auto.
Qed.

(** X22: on a finite original price that is not negative, each pass followed
    by its repair returns an offer whose price is finite and not negative, or
    is [+Infinity]; the latter only when the call returned [+Infinity] as
    the price, which the repair keeps. *)
Theorem sanitized_price_is_finite_nonneg_or_raw_infinity :
  forall (r : reply) (q : Q) (w : world),
    0 <= q -> fair w ->
    (exists (o : offer) (w' : world),
        searchA (Fin q) r w = (Ok o, w') /\
        (finite_nonneg_price o \/
         (price o = Some PosInf /\
          exists o0 : offer,
            callGeminiWithWebSearch r = Ok o0 /\ price o0 = Some PosInf))) /\
    (exists (o : offer) (w' : world),
        searchB (Fin q) r w = (Ok o, w') /\
        (finite_nonneg_price o \/
         (price o = Some PosInf /\
          exists o0 : offer,
            callGeminiWithWebSearch r = Ok o0 /\ price o0 = Some PosInf))).
Proof.
  intros r q w Hq F. split.
  - destruct (performBroadSearch_cases r w F) as (o & w1 & Run & F1 & Origin).
    assert (price o <> Some NaN) as NotNaN.
    { destruct Origin as [Call | ((v & Pr & x & -> & _) & _)].
      - now apply (callGemini_price_is_a_number r).
      - congruence. }
    destruct (repairPrice_outcome 0.85 0.10 0.70 0.15 q o w1 Hq F1 NotNaN)
      as (o' & w2 & Rep & Out); try lra.
    exists o', w2. unfold searchA, bind. rewrite Run.
    split; [exact Rep|].
    destruct Out as [Fine | [Inf Raw]]; [now left|].
    destruct Origin as [Call | ((v & Pr & x & -> & _) & _)]; [|congruence].
    right. split; [exact Inf|]. now exists o.
  - destruct (performPartnerSearch_cases r w F) as (o & w1 & Run & F1 & Origin).
    assert (price o <> Some NaN) as NotNaN.
    { destruct Origin as [(o0 & Call & Same) | ((v & Pr & x & -> & _) & _)].
      - rewrite Same. now apply (callGemini_price_is_a_number r).
      - congruence. }
    destruct (repairPrice_outcome 0.88 0.07 0.75 0.15 q o w1 Hq F1 NotNaN)
      as (o' & w2 & Rep & Out); try lra.
    exists o', w2. unfold searchB, bind. rewrite Run.
    split; [exact Rep|].
    destruct Out as [Fine | [Inf Raw]]; [now left|].
    destruct Origin as [(o0 & Call & Same) | ((v & Pr & x & -> & _) & _)]; [|congruence].
    right. split; [exact Inf|]. exists o0. split; [exact Call | congruence].
Qed.

End Claims.

(** ** [encodeURIComponent] *)

(** Induction on the way [encodeURIComponent] reads its argument: one unit,
    or a pair of surrogates, at a time. *)
Lemma encodeURIComponent_ind (P : jsstring -> jsstring -> Prop) :
  P [] [] ->
  (forall c rest t,
      uri_unreserved c = true ->
      encodeURIComponent rest = Some t -> P rest t -> P (c :: rest) (c :: t)) ->
  (forall c d rest t,
      uri_unreserved c = false -> is_low_surrogate c = false ->
      is_high_surrogate c = true -> is_low_surrogate d = true ->
      encodeURIComponent rest = Some t -> P rest t ->
      P (c :: d :: rest)
        (escape ((c - 55296) * 1024 + (d - 56320) + 65536) ++ t)) ->
  (forall c rest t,
      uri_unreserved c = false -> is_low_surrogate c = false ->
      is_high_surrogate c = false ->
      encodeURIComponent rest = Some t -> P rest t ->
      P (c :: rest) (escape c ++ t)) ->
  forall s t, encodeURIComponent s = Some t -> P s t.
Proof.
  intros Nil Plain Pair Single s.
  remember (List.length s) as n eqn:Len.
  revert s Len. induction n as [n IH] using lt_wf_ind. intros s Len t E.
  destruct s as [|c rest].
  - injection E as <-. exact Nil.
  - cbn [encodeURIComponent] in E.
    destruct (uri_unreserved c) eqn:U.
    + destruct (encodeURIComponent rest) as [t'|] eqn:R; [|discriminate].
      injection E as <-. apply Plain; try assumption.
      apply (IH (List.length rest)); [subst n; simpl; lia | reflexivity | exact R].
    + destruct (is_low_surrogate c) eqn:Lo; [discriminate|].
      destruct (is_high_surrogate c) eqn:Hi.
      * destruct rest as [|d rest']; [discriminate|].
        destruct (is_low_surrogate d) eqn:Lo'; [|discriminate].
        destruct (encodeURIComponent rest') as [t'|] eqn:R; [|discriminate].
        injection E as <-. apply Pair; try assumption.
        apply (IH (List.length rest')); [subst n; simpl; lia | reflexivity | exact R].
      * destruct (encodeURIComponent rest) as [t'|] eqn:R; [|discriminate].
        injection E as <-. apply Single; try assumption.
        apply (IH (List.length rest)); [subst n; simpl; lia | reflexivity | exact R].
Qed.

Lemma encodeURIComponent_app (a a' b : jsstring) :
  encodeURIComponent a = Some a' ->
  encodeURIComponent (a ++ b) = option_map (app a') (encodeURIComponent b).
Proof.
  intro E. revert a a' E.
  apply (encodeURIComponent_ind
           (fun a a' => encodeURIComponent (a ++ b)
                        = option_map (app a') (encodeURIComponent b))).
  - cbn [app]. destruct (encodeURIComponent b); reflexivity.
  - intros c rest t U _ IH. cbn [app encodeURIComponent]. rewrite U, IH.
    destruct (encodeURIComponent b); reflexivity.
  - intros c d rest t U Lo Hi Lo' _ IH. cbn [app encodeURIComponent].
    rewrite U, Lo, Hi, Lo', IH.
    destruct (encodeURIComponent b); cbn [option_map]; [|reflexivity].
    now rewrite app_assoc.
  - intros c rest t U Lo Hi _ IH. cbn [app encodeURIComponent].
    rewrite U, Lo, Hi, IH.
    destruct (encodeURIComponent b); cbn [option_map]; [|reflexivity].
    now rewrite app_assoc.
Qed.

Lemma well_formed_app (a b : jsstring) :
  well_formed a -> well_formed b -> well_formed (a ++ b).
Proof.
  unfold well_formed. intros Wa Wb.
  destruct (encodeURIComponent a) as [a'|] eqn:E; [|congruence].
  rewrite (encodeURIComponent_app a a' b E).
  destruct (encodeURIComponent b); [discriminate | congruence].
Qed.

Lemma no_surrogate_well_formed (s : jsstring) :
  no_surrogate s = true -> well_formed s.
Proof.
  unfold well_formed, no_surrogate.
  induction s as [|c rest IH]; [discriminate|].
  cbn [forallb encodeURIComponent]. intro H.
  apply andb_true_iff in H. destruct H as [Hc Hrest].
  apply andb_true_iff in Hc. destruct Hc as [Lo Hi].
  apply negb_true_iff in Lo. apply negb_true_iff in Hi.
  specialize (IH Hrest).
  destruct (uri_unreserved c); [|rewrite Lo, Hi];
    destruct (encodeURIComponent rest); (discriminate || congruence).
Qed.

Lemma no_surrogate_app (a b : jsstring) :
  no_surrogate (a ++ b) = no_surrogate a && no_surrogate b.
Proof. apply forallb_app. Qed.

Lemma hex_digit_bound (d : N) : (hex_digit d < 128)%N.
Proof.
  unfold hex_digit. pose proof (N.mod_upper_bound d 16) as B.
  destruct (N.ltb_spec (d mod 16) 10); lia.
Qed.

Lemma small_unit_no_surrogate (c : N) :
  (c < 128)%N ->
  negb (is_low_surrogate c) && negb (is_high_surrogate c) = true.
Proof.
  intro B. unfold is_low_surrogate, is_high_surrogate.
  destruct (N.leb_spec 56320 c); [lia|].
  destruct (N.leb_spec 55296 c); [lia|]. reflexivity.
Qed.

Lemma percent_no_surrogate (byte : N) : no_surrogate (percent byte) = true.
Proof.
  unfold percent, no_surrogate. cbn [forallb].
  rewrite !small_unit_no_surrogate; auto using hex_digit_bound.
  reflexivity.
Qed.

Lemma escape_no_surrogate (cp : N) : no_surrogate (escape cp) = true.
Proof.
  unfold escape.
  induction (utf8 cp) as [|byte bytes IH]; [reflexivity|].
  cbn [List.map List.concat]. rewrite no_surrogate_app, percent_no_surrogate.
  exact IH.
Qed.

Lemma uri_unreserved_small (c : N) : uri_unreserved c = true -> (c < 128)%N.
Proof.
  unfold uri_unreserved. cbn [existsb].
  rewrite !orb_true_iff, !andb_true_iff, !N.leb_le, !N.eqb_eq. lia.
Qed.

(** What [encodeURIComponent] returns can be encoded again. *)
Lemma encoded_no_surrogate (s t : jsstring) :
  encodeURIComponent s = Some t -> no_surrogate t = true.
Proof.
  revert s t. apply encodeURIComponent_ind.
  - reflexivity.
  - intros c rest t U _ IH. unfold no_surrogate in *. cbn [forallb].
    rewrite IH, small_unit_no_surrogate; auto using uri_unreserved_small.
  - intros c d rest t _ _ _ _ _ IH.
    now rewrite no_surrogate_app, escape_no_surrogate.
  - intros c rest t _ _ _ _ IH.
    now rewrite no_surrogate_app, escape_no_surrogate.
Qed.

Lemma lit_app_nonempty (a : ascii) (s : string) (x : jsstring) :
  lit (String a s) ++ x <> [].
Proof. discriminate. Qed.

(** ** Links *)

Lemma str_eqb_sym (a b : jsstring) : str_eqb a b = str_eqb b a.
Proof.
  unfold str_eqb.
  destruct (list_eq_dec N.eq_dec a b), (list_eq_dec N.eq_dec b a); congruence.
Qed.

Ltac well_formed_pieces :=
  repeat apply well_formed_app;
  try assumption;
  try (apply no_surrogate_well_formed;
       first [ reflexivity | eapply encoded_no_surrogate; eassumption ]).

Section Links.

Context {host : Host}.

Lemma generateDirectLink_succeeds (o : offer) (s : jsstring)
      (hotelName checkIn checkOut : option jsstring) (w : world) :
  site o = Some s ->
  well_formed (or_else hotelName (lit "hotel")) ->
  exists hotelSearch url : jsstring,
    encodeURIComponent (or_else hotelName (lit "hotel")) = Some hotelSearch /\
    generateDirectLink o hotelName checkIn checkOut w
    = (Ok url, logged F_generateDirectLink w) /\
    url <> [] /\
    (known_site (toLowerCase s) = false ->
     url = generic_search_url hotelSearch
             (or_else checkIn getDefaultCheckIn)
             (or_else checkOut getDefaultCheckOut) (toLowerCase s)).
Proof.
  intros Site Wf. unfold well_formed in Wf.
  destruct (encodeURIComponent (or_else hotelName (lit "hotel")))
    as [hotelSearch|] eqn:E; [|congruence].
  exists hotelSearch.
  cbv beta iota delta [generateDirectLink bind enter encode site_lower ret].
  rewrite E, Site. cbv beta iota.
  unfold known_site, known_sites. cbn [existsb].
  set (key := toLowerCase s).
  destruct (str_eqb key (lit "expedia")) eqn:K1;
    [eexists; repeat split; [apply lit_app_nonempty | discriminate] |].
  destruct (str_eqb key (lit "agoda")) eqn:K2;
    [eexists; repeat split; [apply lit_app_nonempty | discriminate] |].
  destruct (str_eqb key (lit "priceline")) eqn:K3;
    [eexists; repeat split; [apply lit_app_nonempty | discriminate] |].
  destruct (str_eqb key (lit "booking.com")) eqn:K4;
    [eexists; repeat split; [apply lit_app_nonempty | discriminate] |].
  destruct (str_eqb key (lit "booking")) eqn:K5;
    [eexists; repeat split; [apply lit_app_nonempty | discriminate] |].
  cbn [orb].
  destruct (str_eqb key (lit "trivago")) eqn:K6;
    [eexists; repeat split; [apply lit_app_nonempty | discriminate] |].
  destruct (str_eqb key (lit "kayak")) eqn:K7;
    [eexists; repeat split; [apply lit_app_nonempty | discriminate] |].
  destruct (str_eqb key (lit "hotels.com")) eqn:K8.
  - pose proof (no_surrogate_well_formed _ (encoded_no_surrogate _ _ E)) as Again.
    unfold well_formed in Again.
    destruct (encodeURIComponent hotelSearch) as [hotelEncoded|]; [|congruence].
    eexists; repeat split; [apply lit_app_nonempty | discriminate].
  - eexists; repeat split; [apply lit_app_nonempty].
Qed.

Lemma generateAffiliateLink_unknown_partner (o : offer)
      (hotelName checkIn checkOut : option jsstring) (w : world) :
  find_partner (partnerId o) = None ->
  generateAffiliateLink o hotelName checkIn checkOut w
  = generateDirectLink o hotelName checkIn checkOut
      (logged F_generateAffiliateLink w).
Proof.
  intro Unknown.
  cbv beta iota delta [generateAffiliateLink bind enter].
  now rewrite Unknown.
Qed.

Lemma generateAffiliateLink_known_partner (o : offer) (partner : partner)
      (hotelName checkIn checkOut : option jsstring) (w : world) :
  find_partner (partnerId o) = Some partner ->
  well_formed (or_else hotelName (lit "hotel")) ->
  well_formed (or_else checkIn getDefaultCheckIn) ->
  well_formed (or_else checkOut getDefaultCheckOut) ->
  exists wrapped : jsstring,
    generateAffiliateLink o hotelName checkIn checkOut w
    = (Ok (baseUrl partner ++ lit "?url=" ++ wrapped),
       logged F_generateAffiliateLink w).
Proof.
  intros Known Wf WfIn WfOut.
  cbv beta iota delta [generateAffiliateLink bind enter encode ret].
  rewrite Known.
  unfold well_formed in Wf.
  destruct (encodeURIComponent (or_else hotelName (lit "hotel")))
    as [hotelSearch|] eqn:E; [|congruence].
  cbv beta iota.
  destruct (partnerId o) as [id|]; [|discriminate].
  cbn [find_partner lookup_partner APPROVED_PARTNERS] in Known.
  cbn [id_is].
  rewrite (str_eqb_sym _ id) in Known.
  destruct (str_eqb id (lit "hotels_com")).
  { match goal with
    | |- context [encodeURIComponent ?target] =>
        assert (well_formed target) as Target by well_formed_pieces;
        unfold well_formed in Target;
        destruct (encodeURIComponent target) as [wrapped|]; [|congruence]
    end.
    now exists wrapped. }
  rewrite (str_eqb_sym _ id) in Known.
  destruct (str_eqb id (lit "address_hotels")).
  { match goal with
    | |- context [encodeURIComponent ?target] =>
        assert (well_formed target) as Target by well_formed_pieces;
        unfold well_formed in Target;
        destruct (encodeURIComponent target) as [wrapped|]; [|congruence]
    end.
    now exists wrapped. }
  rewrite (str_eqb_sym _ id) in Known.
  destruct (str_eqb id (lit "mytrip")); [|discriminate].
  match goal with
  | |- context [encodeURIComponent ?target] =>
      assert (well_formed target) as Target by well_formed_pieces;
      unfold well_formed in Target;
      destruct (encodeURIComponent target) as [wrapped|]; [|congruence]
  end.
  now exists wrapped.
Qed.

End Links.

Section LinkClaims.

Context {host : Host}.

(** C6, as the code has it: for an offer whose site is a string, and when
    the hotel name and the two dates (or the defaults that replace missing
    ones) can be encoded, that is, hold no surrogate without its partner,
    both link builders return a URL that is not empty; an identifier that is
    not in the catalog sends [generateAffiliateLink] to
    [generateDirectLink], and a site without a template gets the generic
    search URL. *)
Theorem link_composition_succeeds_on_well_formed_strings :
  forall (o : offer) (s : jsstring)
         (hotelName checkIn checkOut : option jsstring) (w : world),
    site o = Some s ->
    well_formed (or_else hotelName (lit "hotel")) ->
    well_formed (or_else checkIn getDefaultCheckIn) ->
    well_formed (or_else checkOut getDefaultCheckOut) ->
    (exists (url : jsstring) (w' : world),
        generateDirectLink o hotelName checkIn checkOut w = (Ok url, w') /\
        url <> []) /\
    (exists (url : jsstring) (w' : world),
        generateAffiliateLink o hotelName checkIn checkOut w = (Ok url, w') /\
        url <> []) /\
    (find_partner (partnerId o) = None ->
     generateAffiliateLink o hotelName checkIn checkOut w
     = generateDirectLink o hotelName checkIn checkOut
         (logged F_generateAffiliateLink w)) /\
    (known_site (toLowerCase s) = false ->
     exists hotelSearch : jsstring,
       encodeURIComponent (or_else hotelName (lit "hotel")) = Some hotelSearch /\
       fst (generateDirectLink o hotelName checkIn checkOut w)
       = Ok (generic_search_url hotelSearch
               (or_else checkIn getDefaultCheckIn)
               (or_else checkOut getDefaultCheckOut) (toLowerCase s))).
Proof.
  intros o s hotelName checkIn checkOut w Site Wf WfIn WfOut.
  split; [|split; [|split]].
  - destruct (generateDirectLink_succeeds o s hotelName checkIn checkOut w Site Wf)
      as (hs & url & _ & Run & NE & _).
    now exists url, (logged F_generateDirectLink w).
  - destruct (find_partner (partnerId o)) as [partner|] eqn:Found.
    + destruct (generateAffiliateLink_known_partner o partner hotelName checkIn
                  checkOut w Found Wf WfIn WfOut) as (wrapped & Run).
      eexists _, _. split; [exact Run|].
      intro Empty. apply app_eq_nil in Empty. destruct Empty as [_ Empty].
      revert Empty. apply lit_app_nonempty.
    + rewrite (generateAffiliateLink_unknown_partner o hotelName checkIn checkOut
                 w Found).
      destruct (generateDirectLink_succeeds o s hotelName checkIn checkOut
                  (logged F_generateAffiliateLink w) Site Wf)
        as (hs & url & _ & Run & NE & _).
      exists url, (logged F_generateDirectLink (logged F_generateAffiliateLink w)).
      split; [exact Run | exact NE].
  - apply generateAffiliateLink_unknown_partner.
  - intro Unknown.
    destruct (generateDirectLink_succeeds o s hotelName checkIn checkOut w Site Wf)
      as (hs & url & Enc & Run & _ & Generic).
    exists hs. split; [exact Enc|]. rewrite Run. cbn [fst].
    now rewrite (Generic Unknown).
Qed.


End LinkClaims.

(** ** The handler *)

Lemma repairPrice_keeps_log (b1 s1 b2 s2 : Q) (original : number) (o : offer)
      (w w' : world) (x : outcome offer) :
  repairPrice b1 s1 b2 s2 original o w = (x, w') -> calls w' = calls w.
Proof.
  destruct (price o) as [p|] eqn:E.
  - rewrite (repairPrice_present b1 s1 b2 s2 _ _ _ _ E).
    destruct (Num.lt _ _); intros [= <- <-]; reflexivity.
  - rewrite (repairPrice_null b1 s1 b2 s2 _ _ _ E). cbv zeta.
    destruct (Num.lt _ _); intros [= <- <-]; reflexivity.
Qed.

Section HandlerClaims.

Context {host : Host}.

Lemma performBroadSearch_keeps_log (r : reply) (w w' : world) (x : outcome offer) :
  performBroadSearchWithGemini r w = (x, w') -> calls w' = calls w.
Proof.
  unfold performBroadSearchWithGemini, try_catch, lift, broadFallback, bind,
    Math_random, ret.
  destruct (callGeminiWithWebSearch r); intros [= <- <-]; reflexivity.
Qed.

Lemma performPartnerSearch_keeps_log (r : reply) (w w' : world) (x : outcome offer) :
  performPartnerSearchWithGemini r w = (x, w') -> calls w' = calls w.
Proof.
  unfold performPartnerSearchWithGemini, try_catch, lift, partnerFallback, bind,
    Math_random, ret, throw.
  destruct (callGeminiWithWebSearch r) as [o|e].
  - destruct (negb (truthy (partnerId o))).
    + destruct (site o).
      * intros [= <- <-]; reflexivity.
      * destruct (array_get _ _) as [[? ?]|]; intros [= <- <-]; reflexivity.
    + intros [= <- <-]; reflexivity.
  - destruct (array_get _ _) as [[? ?]|]; intros [= <- <-]; reflexivity.
Qed.

Lemma searchA_keeps_log (original : number) (r : reply) (w w' : world)
      (x : outcome offer) :
  searchA original r w = (x, w') -> calls w' = calls w.
Proof.
  unfold searchA, bind.
  destruct (performBroadSearchWithGemini r w) as [[o|e] w1] eqn:Run.
  - intro Rep. apply repairPrice_keeps_log in Rep.
    apply performBroadSearch_keeps_log in Run. congruence.
  - intros [= <- <-]. now apply performBroadSearch_keeps_log in Run.
Qed.

Lemma searchB_keeps_log (original : number) (r : reply) (w w' : world)
      (x : outcome offer) :
  searchB original r w = (x, w') -> calls w' = calls w.
Proof.
  unfold searchB, bind.
  destruct (performPartnerSearchWithGemini r w) as [[o|e] w1] eqn:Run.
  - intro Rep. apply repairPrice_keeps_log in Rep.
    apply performPartnerSearch_keeps_log in Run. congruence.
  - intros [= <- <-]. now apply performPartnerSearch_keeps_log in Run.
Qed.

(** C3: when both repaired prices are at least the original price, the
    handler answers NO_SAVINGS_FOUND at once: the log of calls is the one it
    started with, so [apply40PercentRule], [generateAffiliateLink] and
    [generateDirectLink] were not entered, and the body has no link (nor
    any of the figures of a decision). *)
Theorem no_savings_exit_skips_decision_and_links :
  forall (b : booking) (broadReply partnerReply : reply) (w w1 w2 : world)
         (broadSearchResults partnerSearchResults : offer),
    searchA (original_price b) broadReply w = (Ok broadSearchResults, w1) ->
    searchB (original_price b) partnerReply w1 = (Ok partnerSearchResults, w2) ->
    Num.ge (price_number (price partnerSearchResults)) (original_price b) = true ->
    Num.ge (price_number (price broadSearchResults)) (original_price b) = true ->
    search b broadReply partnerReply w
    = (Ok (NO_SAVINGS_FOUND (original_price b)), w2) /\
    calls w2 = calls w /\
    response_link (NO_SAVINGS_FOUND (original_price b)) = None.
Proof.
  intros b broadReply partnerReply w w1 w2 bo po RunA RunB GeP GeB.
  split; [|split].
  - unfold search, try_catch, bind. rewrite RunA, RunB, GeP, GeB. reflexivity.
  - apply searchA_keeps_log in RunA. apply searchB_keeps_log in RunB. congruence.
  - reflexivity.
Qed.

(** C5: when a decision is made and the chosen offer (the partner's if
    [showPartner], the broad one otherwise) has a direct link that is not
    empty and conditions_match true, the link of the response is that
    direct link as it is, under [affiliateLink] on the partner branch and
    under [directLink] on the competitor branch; only [apply40PercentRule]
    was entered, neither link builder. *)
Theorem matching_direct_link_is_returned_verbatim :
  forall (b : booking) (broadReply partnerReply : reply) (w w1 w2 : world)
         (broadSearchResults partnerSearchResults : offer) (c : N) (l : jsstring),
    searchA (original_price b) broadReply w = (Ok broadSearchResults, w1) ->
    searchB (original_price b) partnerReply w1 = (Ok partnerSearchResults, w2) ->
    Num.ge (price_number (price partnerSearchResults)) (original_price b)
    && Num.ge (price_number (price broadSearchResults)) (original_price b) = false ->
    let d := apply40PercentRule (original_price b)
               (price_number (price partnerSearchResults))
               (price_number (price broadSearchResults)) in
    let chosenResult :=
      if showPartner d then partnerSearchResults else broadSearchResults in
    direct_link chosenResult = Some (c :: l) ->
    conditions_match chosenResult = true ->
    exists body : savings,
      search b broadReply partnerReply w
      = (Ok (SAVINGS_FOUND body), logged F_apply40PercentRule w2) /\
      response_link (SAVINGS_FOUND body) = Some (c :: l) /\
      r_affiliateLink body = (if showPartner d then Some (c :: l) else None) /\
      r_directLink body = (if showPartner d then None else Some (c :: l)) /\
      calls (logged F_apply40PercentRule w2) = F_apply40PercentRule :: calls w.
Proof.
  intros b broadReply partnerReply w w1 w2 bo po c l RunA RunB Savings d chosen
         Link Match.
  eexists. split; [|split; [|split; [|split]]].
  - unfold search, try_catch, bind. rewrite RunA, RunB, Savings.
    unfold enter. fold d. fold chosen. rewrite Link, Match.
    unfold ret. reflexivity.
  - cbn [response_link r_affiliateLink r_directLink].
    destruct (showPartner d); reflexivity.
  - reflexivity.
  - reflexivity.
  - cbn [logged calls].
    apply searchA_keeps_log in RunA. apply searchB_keeps_log in RunB. congruence.
Qed.

End HandlerClaims.

(** * The statements at concrete inputs *)

Lemma fair_half : fair (constant_world 0.5).
Proof. apply fair_constant_world; lra. Defined.

(** C3 at a booking of 3000 when both calls fail and every draw is 0.5: the
    made-up prices are 3600 and 3700. *)
Lemma no_savings_exit_skips_decision_and_links_witness :
  fst (search (host := plain_host)
         {| hotel_name := Some (lit "Dan Tel Aviv"); check_in_date := None;
            check_out_date := None; original_price := Fin 3000 |}
         Failed Failed (constant_world 0.5))
  = Ok (NO_SAVINGS_FOUND (Fin 3000)).
Proof.
  set (b := {| hotel_name := Some (lit "Dan Tel Aviv"); check_in_date := None;
               check_out_date := None; original_price := Fin 3000 |}).
  pose proof
    (@no_savings_exit_skips_decision_and_links plain_host b Failed Failed
       (constant_world 0.5)
       (tick (tick (constant_world 0.5)))
       (tick (tick (tick (tick (constant_world 0.5)))))
       {| site := Some (lit "Priceline");
          price := Some (Num.add (Fin (inject_Z 400)) (Fin 3200));
          partnerId := None; conditions_match := false; direct_link := None |}
       {| site := Some (lit "MyTrip");
          price := Some (Num.add (Fin (inject_Z 300)) (Fin 3400));
          partnerId := Some (lit "mytrip");
          conditions_match := false; direct_link := None |}
       eq_refl eq_refl eq_refl eq_refl) as (Run & _ & _).
  rewrite Run. reflexivity.
Defined.

(** C4 when the request itself fails. *)
Lemma failed_pass_returns_synthetic_offer_witness :
  exists (o : offer) (w' : world),
    performPartnerSearchWithGemini (host := plain_host) Failed (constant_world 0.5)
    = (Ok o, w') /\
    synthetic_offer 3400 4000 o.
Proof.
  destruct (@failed_pass_returns_synthetic_offer plain_host Failed RequestError
              (constant_world 0.5) eq_refl fair_half)
    as (_ & o & w' & Run & Syn & _).
  now exists o, w'.
Defined.

(** C4, as stated, fails: the partner of the made-up offer is not a fixed
    one; a draw of 0 gives Hotels.com, a draw of 0.5 gives MyTrip. *)
Lemma partner_fallback_site_is_not_fixed :
  ~ (exists s : jsstring,
        forall w : world,
          fair w ->
          exists (o : offer) (w' : world),
            performPartnerSearchWithGemini (host := plain_host) Failed w = (Ok o, w') /\
            site o = Some s).
Proof.
  intros (s & Fixed).
  destruct (Fixed (constant_world 0)) as (o0 & w0 & Run0 & Site0).
  { apply fair_constant_world; lra. }
  destruct (Fixed (constant_world 0.5) fair_half) as (o1 & w1 & Run1 & Site1).
  vm_compute in Run0. vm_compute in Run1.
  injection Run0 as <- _. injection Run1 as <- _.
  vm_compute in Site0, Site1. congruence.
Qed.

(** C5 on the scenario: original 4000, partner 3800 with a direct link and
    matching conditions, competitor 3900. *)
Lemma matching_direct_link_is_returned_verbatim_witness :
  response_link
    match fst (search (host := scenario_host) scenario_booking
                 (Replied (Some broad_text)) (Replied (Some partner_text))
                 (constant_world 0.5)) with
    | Ok r => r
    | Throw e => ERROR e
    end
  = Some (lit "https://www.hotels.com/ho4711").
Proof.
  pose proof
    (@matching_direct_link_is_returned_verbatim scenario_host
       scenario_booking (Replied (Some broad_text))
       (Replied (Some partner_text)) (constant_world 0.5)
       (constant_world 0.5) (constant_world 0.5)
       {| site := Some (lit "Expedia"); price := Some (Fin 3900);
          partnerId := None; conditions_match := true;
          direct_link := Some (lit "https://www.expedia.com/h77") |}
       {| site := Some (lit "Hotels.com"); price := Some (Fin 3800);
          partnerId := Some (lit "hotels_com"); conditions_match := true;
          direct_link := Some (lit "https://www.hotels.com/ho4711") |}
       104%N (lit "ttps://www.hotels.com/ho4711")
       eq_refl eq_refl eq_refl eq_refl eq_refl) as (body & Run & Link & _).
  rewrite Run. exact Link.
Defined.

(** C6 on a site without template. *)
Lemma link_composition_succeeds_on_well_formed_strings_witness :
  exists (url : jsstring) (w' : world),
    generateDirectLink (host := plain_host)
      {| site := Some (lit "Hotel Deals 24"); price := Some (Fin 3500);
         partnerId := None; conditions_match := false; direct_link := None |}
      (Some (lit "Dan Tel Aviv")) None None (constant_world 0.5) = (Ok url, w') /\
    url <> [].
Proof.
  destruct (@link_composition_succeeds_on_well_formed_strings plain_host
              {| site := Some (lit "Hotel Deals 24"); price := Some (Fin 3500);
                 partnerId := None; conditions_match := false; direct_link := None |}
              (lit "Hotel Deals 24") (Some (lit "Dan Tel Aviv")) None None
              (constant_world 0.5) eq_refl)
    as (Direct & _); try (vm_compute; discriminate).
  exact Direct.
Defined.

(** C6, as stated, fails: a hotel name that holds a high surrogate without
    its partner makes [encodeURIComponent] throw, in both builders. *)
Lemma lone_surrogate_hotel_name_breaks_link_composition :
  fst (generateDirectLink (host := plain_host)
         {| site := Some (lit "Expedia"); price := Some (Fin 3500);
            partnerId := None; conditions_match := false; direct_link := None |}
         (Some (lit "Dan " ++ [55357%N])) (Some (lit "2026-12-01"))
         (Some (lit "2026-12-03")) (constant_world 0.5))
  = Throw URIError /\
  fst (generateAffiliateLink (host := plain_host)
         {| site := Some (lit "Hotels.com"); price := Some (Fin 3500);
            partnerId := Some (lit "hotels_com"); conditions_match := false;
            direct_link := None |}
         (Some (lit "Dan " ++ [55357%N])) (Some (lit "2026-12-01"))
         (Some (lit "2026-12-03")) (constant_world 0.5))
  = Throw URIError.
Proof. split; reflexivity. Qed.

(** The same on a broad pass whose call fails. *)
Lemma sanitized_price_is_finite_nonneg_or_raw_infinity_witness :
  exists (o : offer) (w' : world),
    searchA (host := plain_host) (Fin 4000) Failed (constant_world 0.5) = (Ok o, w') /\
    (finite_nonneg_price o \/
     (price o = Some PosInf /\
      exists o0 : offer,
        callGeminiWithWebSearch (host := plain_host) Failed = Ok o0 /\
        price o0 = Some PosInf)).
Proof.
  assert (0 <= 4000) as Hq by lra.
  destruct (@sanitized_price_is_finite_nonneg_or_raw_infinity plain_host Failed
              4000 (constant_world 0.5) Hq fair_half) as (Broad & _).
  exact Broad.
Defined.

(** C7 is not met by the code: a price of 1e999 is read as [Infinity],
    passes the [isNaN] test of [callGeminiWithWebSearch], is not below
    0.30 * 4000, and is still [Infinity], not a finite number, after the
    repair of the broad pass. *)
Lemma infinite_raw_price_survives_repair :
  exists (o : offer) (w' : world),
    searchA (host := host_returning overflow_json) (Fin 4000)
      (Replied (Some overflow_text)) (constant_world 0.5) = (Ok o, w') /\
    price o = Some PosInf /\
    ~ finite_nonneg_price o.
Proof.
  eexists _, _. split; [reflexivity|]. split; [reflexivity|].
  intros (x & Pr & _). discriminate Pr.
Qed.


(** * Further properties of the search path *)

(** ** Extraction of the JSON text *)

Lemma indexOf_first (pre rest : jsstring) (c : N) :
  ~ In c pre -> indexOf (pre ++ c :: rest) c = Some (List.length pre).
Proof.
  induction pre as [|x pre IH]; intro Out; cbn [app indexOf List.length].
  - now rewrite N.eqb_refl.
  - destruct (N.eqb_spec x c) as [-> | _].
    + exfalso. apply Out. now left.
    + rewrite IH; [reflexivity|]. intro Mem. apply Out. now right.
Qed.

Lemma lastIndexOf_none (s : jsstring) (c : N) :
  ~ In c s -> lastIndexOf s c = None.
Proof.
  induction s as [|x s IH]; intro Out; cbn [lastIndexOf]; [reflexivity|].
  rewrite IH by (intro Mem; apply Out; now right).
  destruct (N.eqb_spec x c) as [-> | _]; [|reflexivity].
  exfalso. apply Out. now left.
Qed.

Lemma indexOf_none (s : jsstring) (c : N) :
  ~ In c s -> indexOf s c = None.
Proof.
  induction s as [|x s IH]; intro Out; cbn [indexOf]; [reflexivity|].
  destruct (N.eqb_spec x c) as [-> | _].
  - exfalso. apply Out. now left.
  - now rewrite IH by (intro Mem; apply Out; now right).
Qed.

Lemma lastIndexOf_last (pre post : jsstring) (c : N) :
  ~ In c post -> lastIndexOf (pre ++ c :: post) c = Some (List.length pre).
Proof.
  intro Out. induction pre as [|x pre IH]; cbn [app lastIndexOf List.length].
  - rewrite (lastIndexOf_none post c Out). now rewrite N.eqb_refl.
  - now rewrite IH.
Qed.

Lemma slice_middle (pre mid post : jsstring) :
  slice (pre ++ mid ++ post) (List.length pre) (List.length pre + List.length mid)
  = mid.
Proof.
  unfold slice.
  rewrite firstn_app, firstn_all2 by lia.
  replace (List.length pre + List.length mid - List.length pre)%nat
    with (List.length mid) by lia.
  rewrite firstn_app, firstn_all, Nat.sub_diag. cbn [firstn].
  rewrite app_nil_r.
  rewrite skipn_app, skipn_all, Nat.sub_diag. reflexivity.
Qed.

Section Extraction.

Context {host : Host}.

(** X1: whatever stands before the first opening brace and after the last
    closing brace of the answer is dropped: the parser is given the text
    from the one to the other, both included. *)
Theorem callGemini_parses_from_first_to_last_brace :
  forall pre mid post : jsstring,
    ~ In 123%N pre -> ~ In 125%N post ->
    callGeminiWithWebSearch (Replied (Some (pre ++ [123%N] ++ mid ++ [125%N] ++ post)))
    = parsed_as ([123%N] ++ mid ++ [125%N]).
Proof.
  intros pre mid post NoOpen NoClose.
  unfold callGeminiWithWebSearch, parsed_as.
  assert (truthy (Some (pre ++ [123%N] ++ mid ++ [125%N] ++ post)) = true) as T.
  { destruct pre; reflexivity. }
  rewrite T. cbn [negb].
  assert (or_else (Some (pre ++ [123%N] ++ mid ++ [125%N] ++ post)) []
          = pre ++ [123%N] ++ mid ++ [125%N] ++ post) as Text.
  { destruct pre; reflexivity. }
  rewrite Text.
  cbn [app]. rewrite (indexOf_first pre _ 123 NoOpen).
  replace (pre ++ 123%N :: mid ++ 125%N :: post)
    with ((pre ++ 123%N :: mid) ++ 125%N :: post)
    by (now rewrite <- app_assoc).
  rewrite (lastIndexOf_last (pre ++ 123%N :: mid) post 125 NoClose).
  replace ((pre ++ 123%N :: mid) ++ 125%N :: post)
    with (pre ++ (123%N :: mid ++ [125%N]) ++ post)
    by (rewrite <- !app_assoc; cbn [app]; now rewrite <- app_assoc).
  replace (List.length (pre ++ 123%N :: mid) + 1)%nat
    with (List.length pre + List.length (123%N :: mid ++ [125%N]))%nat
    by (rewrite !length_app; cbn [List.length]; rewrite length_app; cbn [List.length]; lia).
  rewrite slice_middle. reflexivity.
Qed.

(** X2: an answer without text, or whose text is empty, is a
    'No result' error; a text without opening brace, or without closing
    brace, is a 'No valid JSON' error.  The parser is not consulted. *)
Theorem callGemini_rejects_text_without_braces :
  forall text : jsstring,
    callGeminiWithWebSearch (Replied None) = Throw NoResultError /\
    callGeminiWithWebSearch (Replied (Some [])) = Throw NoResultError /\
    (text <> [] -> ~ In 123%N text \/ ~ In 125%N text ->
     callGeminiWithWebSearch (Replied (Some text)) = Throw NoJsonError).
Proof.
  intro text. split; [reflexivity|]. split; [reflexivity|].
  intros NE Missing. unfold callGeminiWithWebSearch.
  destruct text as [|c text]; [congruence|].
  cbn [truthy negb or_else].
  destruct Missing as [NoOpen | NoClose].
  - now rewrite (indexOf_none _ _ NoOpen).
  - rewrite (lastIndexOf_none _ _ NoClose).
    now destruct (indexOf (c :: text) 123).
Qed.

(** X3: when the last closing brace stands before the first opening brace,
    the parser is given the empty string. *)
Theorem callGemini_parses_empty_string_on_reversed_braces :
  forall a b c : jsstring,
    ~ In 123%N a -> ~ In 123%N b -> ~ In 125%N b -> ~ In 125%N c ->
    callGeminiWithWebSearch (Replied (Some (a ++ [125%N] ++ b ++ [123%N] ++ c)))
    = parsed_as [].
Proof.
  intros a b c OpenA OpenB CloseB CloseC.
  unfold callGeminiWithWebSearch, parsed_as.
  assert (truthy (Some (a ++ [125%N] ++ b ++ [123%N] ++ c)) = true) as T.
  { destruct a; reflexivity. }
  rewrite T. cbn [negb].
  assert (or_else (Some (a ++ [125%N] ++ b ++ [123%N] ++ c)) []
          = a ++ [125%N] ++ b ++ [123%N] ++ c) as Text.
  { destruct a; reflexivity. }
  rewrite Text. cbn [app].
  assert (indexOf (a ++ 125%N :: b ++ 123%N :: c) 123
          = Some (List.length (a ++ 125%N :: b))) as First.
  { replace (a ++ 125%N :: b ++ 123%N :: c) with ((a ++ 125%N :: b) ++ 123%N :: c)
      by (now rewrite <- app_assoc).
    apply indexOf_first. intro Mem. apply in_app_or in Mem.
    destruct Mem as [Mem | [Eq | Mem]]; [tauto | discriminate | tauto]. }
  assert (lastIndexOf (a ++ 125%N :: b ++ 123%N :: c) 125 = Some (List.length a))
    as Last.
  { apply lastIndexOf_last. intro Mem. apply in_app_or in Mem.
    destruct Mem as [Mem | [Eq | Mem]]; [tauto | discriminate | tauto]. }
  rewrite First, Last.
  assert (slice (a ++ 125%N :: b ++ 123%N :: c) (List.length (a ++ 125%N :: b))
                (List.length a + 1) = []) as Empty.
  { unfold slice. apply skipn_all2. rewrite length_firstn, !length_app.
    cbn [List.length].
    etransitivity; [apply Nat.le_min_l | lia]. }
  now rewrite Empty.
Qed.

End Extraction.

(** ** The partner identifier *)

Section PartnerIdentifier.

Context {host : Host}.

Lemma inferPartnerId_in_catalog (s : jsstring) :
  exists p : partner, find_partner (Some (inferPartnerId s)) = Some p.
Proof.
  unfold inferPartnerId.
  destruct (includes _ (lit "hotels")); [eexists; reflexivity|].
  destruct (includes _ (lit "mytrip")); [eexists; reflexivity|].
  destruct (includes _ (lit "address")); eexists; reflexivity.
Qed.

Lemma partnerOptions_in_catalog (s id : jsstring) :
  In (s, id) partnerOptions ->
  exists p : partner, find_partner (Some id) = Some p /\ partner_name p = s.
Proof.
  intros [E | [E | [E | []]]]; injection E as <- <-;
    eexists; split; reflexivity.
Qed.

(** X4: with [Math.random] in [0, 1), the partner pass returns normally an
    offer that has a partner identifier.  Either the call returned an offer
    with an identifier, and this offer is returned as it is, or the
    identifier is a key of the catalog. *)
Theorem partner_pass_always_names_a_partner :
  forall (r : reply) (w : world),
    fair w ->
    exists (o : offer) (w' : world),
      performPartnerSearchWithGemini r w = (Ok o, w') /\
      truthy (partnerId o) = true /\
      ((callGeminiWithWebSearch r = Ok o /\ w' = w) \/
       exists p : partner, find_partner (partnerId o) = Some p).
Proof.
  intros r w F.
  destruct (partnerFallback_spec w F) as (fo & Run & _ & s & id & _ & Id & Mem).
  destruct (partnerOptions_in_catalog s id Mem) as (p & Found & _).
  assert (truthy (partnerId fo) = true) as Named.
  { rewrite Id. destruct Mem as [E | [E | [E | []]]]; injection E as _ <-; reflexivity. }
  unfold performPartnerSearchWithGemini, try_catch, bind, lift.
  destruct (callGeminiWithWebSearch r) as [o|e] eqn:Call.
  - destruct (truthy (partnerId o)) eqn:Given; cbn [negb].
    + exists o, w. unfold ret. auto.
    + destruct (site o) as [s'|]; unfold ret, throw.
      * destruct (inferPartnerId_in_catalog s') as (p' & Found').
        eexists _, w. split; [reflexivity|]. cbn [set_partnerId partnerId].
        split; [|right; now exists p'].
        unfold inferPartnerId.
        destruct (includes _ (lit "hotels")); [reflexivity|].
        destruct (includes _ (lit "mytrip")); [reflexivity|].
        destruct (includes _ (lit "address")); reflexivity.
      * exists fo, (tick (tick w)). split; [exact Run|]. split; [exact Named|].
        right. exists p. now rewrite Id.
  - exists fo, (tick (tick w)). split; [exact Run|]. split; [exact Named|].
    right. exists p. now rewrite Id.
Qed.

(** X5: the offer that the partner pass makes up when its call fails agrees
    with the catalog: its identifier is a key of [APPROVED_PARTNERS] and its
    site is the name of that entry. *)
Theorem partner_fallback_agrees_with_catalog :
  forall (r : reply) (e : error) (w : world),
    callGeminiWithWebSearch r = Throw e -> fair w ->
    exists (o : offer) (w' : world) (p : partner),
      performPartnerSearchWithGemini r w = (Ok o, w') /\
      find_partner (partnerId o) = Some p /\
      site o = Some (partner_name p).
Proof.
  intros r e w Call F.
  destruct (partnerFallback_spec w F) as (fo & Run & _ & s & id & Site & Id & Mem).
  destruct (partnerOptions_in_catalog s id Mem) as (p & Found & Name).
  exists fo, (tick (tick w)), p.
  unfold performPartnerSearchWithGemini, try_catch, bind, lift. rewrite Call.
  split; [exact Run|]. rewrite Id, Site, Name. auto.
Qed.

End PartnerIdentifier.

(** ** More on the price repair *)

Lemma repairPrice_touches_only_price (b1 s1 b2 s2 : Q) (original : number)
      (o : offer) (w : world) :
  exists (o' : offer) (w' : world),
    repairPrice b1 s1 b2 s2 original o w = (Ok o', w') /\
    site o' = site o /\ partnerId o' = partnerId o /\
    conditions_match o' = conditions_match o /\
    direct_link o' = direct_link o /\
    (w' = w \/ w' = tick w \/ w' = tick (tick w)).
Proof.
  destruct (price o) as [p|] eqn:E.
  - rewrite (repairPrice_present b1 s1 b2 s2 _ _ _ _ E).
    destruct (Num.lt _ _); eexists _, _; (split; [reflexivity|]);
      cbn [set_price site partnerId conditions_match direct_link]; auto 10.
  - rewrite (repairPrice_null b1 s1 b2 s2 _ _ _ E). cbv zeta.
    destruct (Num.lt _ _); eexists _, _; (split; [reflexivity|]);
      cbn [set_price site partnerId conditions_match direct_link]; auto 10.
Qed.

(** X7: the repair never throws and changes nothing but the price: the
    site, the identifier, the conditions flag and the direct link of the
    offer are kept; it draws at most two random numbers.  This holds for
    every original price, [NaN] and the infinities included. *)
Theorem repair_changes_only_the_price :
  forall (original : number) (o : offer) (w : world),
    (exists (o' : offer) (w' : world),
        repairBroadPrice original o w = (Ok o', w') /\
        site o' = site o /\ partnerId o' = partnerId o /\
        conditions_match o' = conditions_match o /\
        direct_link o' = direct_link o /\
        (w' = w \/ w' = tick w \/ w' = tick (tick w))) /\
    (exists (o' : offer) (w' : world),
        repairPartnerPrice original o w = (Ok o', w') /\
        site o' = site o /\ partnerId o' = partnerId o /\
        conditions_match o' = conditions_match o /\
        direct_link o' = direct_link o /\
        (w' = w \/ w' = tick w \/ w' = tick (tick w))).
Proof.
  intros original o w. split; apply repairPrice_touches_only_price.
Qed.

Lemma floor_of_fraction_is_plausible (q f : Q) :
  (5 # 2) <= q -> (7 # 10) <= f ->
  Num.lt (Fin (inject_Z (Qfloor (q * f)))) (Num.mul (Fin q) (Fin 0.3)) = false.
Proof.
  intros Hq Hf. cbn [Num.mul Num.lt]. apply Qlt_bool_false_iff.
  pose proof (Qlt_floor (q * f)) as Up. rewrite inject_Z_plus in Up.
  change (inject_Z 1) with 1 in Up. nra.
Qed.

Lemma repairPrice_keeps_plausible (b1 s1 b2 s2 : Q) (original v : number)
      (o : offer) (w : world) :
  Num.lt v (Num.mul original (Fin 0.3)) = false ->
  repairPrice b1 s1 b2 s2 original (set_price o v) w = (Ok (set_price o v), w).
Proof.
  intro Plausible.
  rewrite (repairPrice_present b1 s1 b2 s2 original v (set_price o v) w eq_refl).
  now rewrite Plausible.
Qed.

Lemma repairPrice_twice (b1 s1 b2 s2 q : Q) (o : offer) (w : world) :
  (5 # 2) <= q -> fair w ->
  0 <= s1 -> 0 <= s2 -> (7 # 10) <= b1 -> (7 # 10) <= b2 ->
  exists (o' : offer) (w' : world),
    repairPrice b1 s1 b2 s2 (Fin q) o w = (Ok o', w') /\
    repairPrice b1 s1 b2 s2 (Fin q) o' w' = (Ok o', w').
Proof.
  intros Hq F Hs1 Hs2 Hb1 Hb2.
  destruct (price o) as [p|] eqn:E.
  - rewrite (repairPrice_present b1 s1 b2 s2 _ _ _ _ E).
    destruct (Num.lt p (Num.mul (Fin q) (Fin 0.3))) eqn:Low.
    + destruct (draw_fraction w b2 s2 F Hs2) as [Flo _].
      eexists _, _. split; [reflexivity|].
      apply repairPrice_keeps_plausible. cbn [Num.add Num.mul Num.floor].
      apply (floor_of_fraction_is_plausible q); [assumption | lra].
    + exists o, w. split; [reflexivity|].
      now rewrite (repairPrice_present b1 s1 b2 s2 _ _ _ _ E), Low.
  - rewrite (repairPrice_null b1 s1 b2 s2 _ _ _ E). cbv zeta.
    destruct (draw_fraction w b1 s1 F Hs1) as [Flo _].
    cbn [Num.add Num.mul Num.floor].
    pose proof (floor_of_fraction_is_plausible q
                  (b1 + draws w (cursor w) * s1) Hq ltac:(lra)) as Plausible.
    cbn [Num.mul] in Plausible. rewrite Plausible.
    eexists _, _. split; [reflexivity|].
    apply repairPrice_keeps_plausible. exact Plausible.
Qed.

(** X6: on an original price of at least 2.5, repairing twice is repairing
    once: the offer that a repair returns is left as it is by a second
    repair, which draws nothing. *)
Theorem repair_is_idempotent_from_two_and_a_half :
  forall (q : Q) (o : offer) (w : world),
    (5 # 2) <= q -> fair w ->
    (exists (o' : offer) (w' : world),
        repairBroadPrice (Fin q) o w = (Ok o', w') /\
        repairBroadPrice (Fin q) o' w' = (Ok o', w')) /\
    (exists (o' : offer) (w' : world),
        repairPartnerPrice (Fin q) o w = (Ok o', w') /\
        repairPartnerPrice (Fin q) o' w' = (Ok o', w')).
Proof.
  intros q o w Hq F. split; apply repairPrice_twice; try assumption; lra.
Qed.

(** ** More on the fairness rule *)


(** X13: a partner that is not dearer than the competitor, nor than the
    original booking, is shown; a partner that saves nothing is not shown
    against a competitor that is cheaper than it. *)
Theorem partner_shown_when_not_dearer :
  forall o p c : Q,
    (p <= c -> p <= o ->
     showPartner (apply40PercentRule (Fin o) (Fin p) (Fin c)) = true) /\
    (o <= p -> c < p ->
     showPartner (apply40PercentRule (Fin o) (Fin p) (Fin c)) = false).
Proof.
  intros o p c. unfold apply40PercentRule.
  cbn [showPartner Num.sub Num.mul Num.le]. split.
  - intros Hc Ho. apply Qle_bool_iff. lra.
  - intros Ho Hc.
    destruct (Qle_bool (o - c - (o - p)) ((o - p) * 0.40)) eqn:Le; [|reflexivity].
    apply Qle_bool_iff in Le. lra.
Qed.

(** ** More on the handler *)

Lemma fair_of_draws (w w' : world) : draws w' = draws w -> fair w -> fair w'.
Proof. intros E F i. rewrite E. apply F. Qed.

Lemma repairPrice_keeps_draws (b1 s1 b2 s2 : Q) (original : number) (o : offer)
      (w w' : world) (x : outcome offer) :
  repairPrice b1 s1 b2 s2 original o w = (x, w') -> draws w' = draws w.
Proof.
  destruct (price o) as [p|] eqn:E.
  - rewrite (repairPrice_present b1 s1 b2 s2 _ _ _ _ E).
    destruct (Num.lt _ _); intros [= <- <-]; reflexivity.
  - rewrite (repairPrice_null b1 s1 b2 s2 _ _ _ E). cbv zeta.
    destruct (Num.lt _ _); intros [= <- <-]; reflexivity.
Qed.

Section Handler.

Context {host : Host}.

(** The handler, one step at a time. *)
Lemma search_steps (b : booking) (broadReply partnerReply : reply) (w : world) :
  search b broadReply partnerReply w =
  match searchA (original_price b) broadReply w with
  | (Throw e, w1) => (Ok (ERROR e), w1)
  | (Ok bo, w1) =>
      match searchB (original_price b) partnerReply w1 with
      | (Throw e, w2) => (Ok (ERROR e), w2)
      | (Ok po, w2) =>
          if Num.ge (price_number (price po)) (original_price b)
             && Num.ge (price_number (price bo)) (original_price b)
          then (Ok (NO_SAVINGS_FOUND (original_price b)), w2)
          else
            let d := apply40PercentRule (original_price b)
                       (price_number (price po)) (price_number (price bo)) in
            match link_step b d po bo (logged F_apply40PercentRule w2) with
            | (Throw e, w3) => (Ok (ERROR e), w3)
            | (Ok link, w3) => (Ok (SAVINGS_FOUND (savings_body b d po bo link)), w3)
            end
      end
  end.
Proof.
  unfold search, try_catch, bind.
  destruct (searchA (original_price b) broadReply w) as [[bo|e] w1];
    [|reflexivity].
  destruct (searchB (original_price b) partnerReply w1) as [[po|e] w2];
    [|reflexivity].
  destruct (Num.ge _ _ && Num.ge _ _); [reflexivity|].
  cbv zeta. unfold enter. fold (link_step b
    (apply40PercentRule (original_price b) (price_number (price po))
       (price_number (price bo))) po bo).
  destruct (link_step _ _ _ _ _) as [[link|e] w3]; reflexivity.
Qed.

Lemma generateDirectLink_outcome (o : offer)
      (hotelName checkIn checkOut : option jsstring) (w w' : world)
      (x : outcome jsstring) :
  generateDirectLink o hotelName checkIn checkOut w = (x, w') ->
  (forall e, x = Throw e -> e = TypeError \/ e = URIError) /\
  calls w' = [F_generateDirectLink] ++ calls w.
Proof.
  cbv beta iota delta [generateDirectLink bind enter encode site_lower ret throw].
  destruct (encodeURIComponent (or_else hotelName (lit "hotel"))) as [hs|].
  2:{ intros [= <- <-]. split; [intros e [= <-]; auto | reflexivity]. }
  destruct (site o) as [s|].
  2:{ intros [= <- <-]. split; [intros e [= <-]; auto | reflexivity]. }
  cbv beta iota.
  repeat match goal with
         | |- context [if ?c then _ else _] => destruct c
         end;
    try (intros [= <- <-]; split; [intros e [=] | reflexivity]).
  destruct (encodeURIComponent hs);
    intros [= <- <-]; (split; [intros e [=]; subst; auto | reflexivity]).
Qed.

Lemma generateAffiliateLink_outcome (o : offer)
      (hotelName checkIn checkOut : option jsstring) (w w' : world)
      (x : outcome jsstring) :
  generateAffiliateLink o hotelName checkIn checkOut w = (x, w') ->
  (forall e, x = Throw e -> e = TypeError \/ e = URIError) /\
  exists l : list fn, calls w' = l ++ calls w.
Proof.
  destruct (find_partner (partnerId o)) as [p|] eqn:Found.
  - cbv beta iota delta [generateAffiliateLink bind enter encode ret throw].
    rewrite Found.
    destruct (encodeURIComponent (or_else hotelName (lit "hotel"))) as [hs|].
    2:{ intros [= <- <-]. split; [intros e [= <-]; auto|].
        now exists [F_generateAffiliateLink]. }
    cbv beta iota zeta.
    destruct (id_is _ (lit "hotels_com")).
    { destruct (encodeURIComponent _); intros [= <- <-];
        (split; [intros e [=]; subst; auto | now exists [F_generateAffiliateLink]]). }
    destruct (id_is _ (lit "address_hotels")).
    { destruct (encodeURIComponent _); intros [= <- <-];
        (split; [intros e [=]; subst; auto | now exists [F_generateAffiliateLink]]). }
    destruct (id_is _ (lit "mytrip")).
    { destruct (encodeURIComponent _); intros [= <- <-];
        (split; [intros e [=]; subst; auto | now exists [F_generateAffiliateLink]]). }
    intro Run. apply generateDirectLink_outcome in Run.
    destruct Run as [Err Log]. split; [exact Err|].
    exists [F_generateDirectLink; F_generateAffiliateLink]. exact Log.
  - rewrite (generateAffiliateLink_unknown_partner o _ _ _ w Found).
    intro Run. apply generateDirectLink_outcome in Run.
    destruct Run as [Err Log]. split; [exact Err|].
    exists [F_generateDirectLink; F_generateAffiliateLink]. exact Log.
Qed.

Lemma link_step_outcome (b : booking) (d : decision) (po bo : offer)
      (w w' : world) (x : outcome jsstring) :
  link_step b d po bo w = (x, w') ->
  (forall e, x = Throw e -> e = TypeError \/ e = URIError) /\
  exists l : list fn, calls w' = l ++ calls w.
Proof.
  unfold link_step.
  assert (forall y : outcome jsstring * world,
             (if showPartner d
              then generateAffiliateLink po (hotel_name b) (check_in_date b)
                     (check_out_date b)
              else generateDirectLink bo (hotel_name b) (check_in_date b)
                     (check_out_date b)) w = y ->
             y = (x, w') ->
             (forall e, x = Throw e -> e = TypeError \/ e = URIError) /\
             exists l : list fn, calls w' = l ++ calls w) as Built.
  { intros y Run ->. destruct (showPartner d).
    - now apply generateAffiliateLink_outcome in Run.
    - apply generateDirectLink_outcome in Run. destruct Run as [Err Log].
      split; [exact Err | now exists [F_generateDirectLink]]. }
  destruct (direct_link _) as [[|c l]|];
    [ | destruct (conditions_match _) | ];
    try (intro Run; exact (Built _ Run eq_refl)).
  intros [= <- <-]. split; [intros e [=] | now exists []].
Qed.

Lemma searchA_keeps_draws (original : number) (r : reply) (w w' : world)
      (x : outcome offer) :
  searchA original r w = (x, w') -> draws w' = draws w.
Proof.
  unfold searchA, bind, performBroadSearchWithGemini, try_catch, lift,
    broadFallback, bind, Math_random, ret, repairBroadPrice.
  destruct (callGeminiWithWebSearch r); intro Rep;
    apply repairPrice_keeps_draws in Rep; exact Rep.
Qed.

Lemma searchA_returns (original : number) (r : reply) (w : world) :
  fair w ->
  exists (o : offer) (w' : world),
    searchA original r w = (Ok o, w') /\ fair w'.
Proof.
  intro F.
  destruct (performBroadSearch_cases r w F) as (o & w1 & Run & F1 & _).
  destruct (repairPrice_touches_only_price 0.85 0.10 0.70 0.15 original o w1)
    as (o' & w2 & Rep & _ & _ & _ & _ & Ticks).
  exists o', w2. unfold searchA, bind. rewrite Run. split; [exact Rep|].
  destruct Ticks as [-> | [-> | ->]]; auto using fair_tick.
Qed.

Lemma searchB_returns (original : number) (r : reply) (w : world) :
  fair w ->
  exists (o : offer) (w' : world),
    searchB original r w = (Ok o, w') /\ fair w'.
Proof.
  intro F.
  destruct (performPartnerSearch_cases r w F) as (o & w1 & Run & F1 & _).
  destruct (repairPrice_touches_only_price 0.88 0.07 0.75 0.15 original o w1)
    as (o' & w2 & Rep & _ & _ & _ & _ & Ticks).
  exists o', w2. unfold searchB, bind. rewrite Run. split; [exact Rep|].
  destruct Ticks as [-> | [-> | ->]]; auto using fair_tick.
Qed.

End Handler.

Lemma chosen_price_saves (q : Q) (pp bp : number) :
  (pp = PosInf \/ exists x : Q, pp = Fin x /\ 0 <= x) ->
  (bp = PosInf \/ exists x : Q, bp = Fin x /\ 0 <= x) ->
  Num.ge pp (Fin q) && Num.ge bp (Fin q) = false ->
  exists x : Q,
    (if showPartner (apply40PercentRule (Fin q) pp bp) then pp else bp) = Fin x /\
    0 <= x /\ x < q.
Proof.
  intros [-> | (a & -> & Pa)] [-> | (c & -> & Pc)] Savings;
    unfold Num.ge in Savings; cbn [Num.le andb] in Savings.
  - discriminate.
  - exists c. cbn.
    split; [reflexivity|]. split; [exact Pc|].
    apply Qlt_bool_iff. unfold Qlt_bool. now rewrite Savings.
  - rewrite andb_true_r in Savings. exists a. cbn.
    split; [reflexivity|]. split; [exact Pa|].
    apply Qlt_bool_iff. unfold Qlt_bool. now rewrite Savings.
  - unfold apply40PercentRule. cbn [showPartner Num.sub Num.mul Num.le].
    destruct (Qle_bool (q - c - (q - a)) ((q - a) * 0.40)) eqn:Show.
    + exists a. split; [reflexivity|]. split; [exact Pa|].
      apply Qle_bool_iff in Show.
      destruct (Qle_bool q a) eqn:Ga.
      * cbn [andb] in Savings. apply Qle_bool_iff in Ga.
        apply Qlt_bool_false_iff in Ga. unfold Qlt_bool in Ga.
        assert (c < q) by (apply Qlt_bool_iff; unfold Qlt_bool; now rewrite Savings).
        apply Qlt_bool_false_iff in Ga. lra.
      * apply Qlt_bool_iff. unfold Qlt_bool. now rewrite Ga.
    + exists c. split; [reflexivity|]. split; [exact Pc|].
      destruct (Qle_bool q c) eqn:Gc.
      * rewrite andb_true_r in Savings. apply Qle_bool_iff in Gc.
        assert (a < q) by (apply Qlt_bool_iff; unfold Qlt_bool; now rewrite Savings).
        assert (q - c - (q - a) <= (q - a) * 0.40) as Le by lra.
        apply Qle_bool_iff in Le. congruence.
      * apply Qlt_bool_iff. unfold Qlt_bool. now rewrite Gc.
Qed.

Section HandlerProperties.

Context {host : Host}.

Lemma searchA_price (q : Q) (r : reply) (w : world) (o : offer) (w' : world) :
  0 <= q -> fair w ->
  searchA (Fin q) r w = (Ok o, w') ->
  price_number (price o) = PosInf \/
  exists x : Q, price_number (price o) = Fin x /\ 0 <= x.
Proof.
  intros Hq F Run.
  destruct (performBroadSearch_cases r w F) as (o0 & w1 & Pass & F1 & Origin).
  assert (price o0 <> Some NaN) as NotNaN.
  { destruct Origin as [Call | ((v & Pr & x & -> & _) & _)].
    - now apply (callGemini_price_is_a_number r).
    - congruence. }
  destruct (repairPrice_outcome 0.85 0.10 0.70 0.15 q o0 w1 Hq F1 NotNaN)
    as (o' & w2 & Rep & Out); try lra.
  unfold searchA, bind in Run. rewrite Pass in Run.
  unfold repairBroadPrice in Run. rewrite Rep in Run. injection Run as <- <-.
  destruct Out as [(x & -> & Pos) | [-> _]]; [right; now exists x | now left].
Qed.

Lemma searchB_price (q : Q) (r : reply) (w : world) (o : offer) (w' : world) :
  0 <= q -> fair w ->
  searchB (Fin q) r w = (Ok o, w') ->
  price_number (price o) = PosInf \/
  exists x : Q, price_number (price o) = Fin x /\ 0 <= x.
Proof.
  intros Hq F Run.
  destruct (performPartnerSearch_cases r w F) as (o0 & w1 & Pass & F1 & Origin).
  assert (price o0 <> Some NaN) as NotNaN.
  { destruct Origin as [(o1 & Call & Same) | ((v & Pr & x & -> & _) & _)].
    - rewrite Same. now apply (callGemini_price_is_a_number r).
    - congruence. }
  destruct (repairPrice_outcome 0.88 0.07 0.75 0.15 q o0 w1 Hq F1 NotNaN)
    as (o' & w2 & Rep & Out); try lra.
  unfold searchB, bind in Run. rewrite Pass in Run.
  unfold repairPartnerPrice in Run. rewrite Rep in Run. injection Run as <- <-.
  destruct Out as [(x & -> & Pos) | [-> _]]; [right; now exists x | now left].
Qed.

(** X8: on a finite original price that is not negative, a SAVINGS_FOUND
    body always recommends a finite price below the original one: its
    savings are positive, whichever offer the fairness rule picked and
    even when one of the two prices is [Infinity]. *)
Theorem savings_found_means_positive_savings :
  forall (b : booking) (q : Q) (broadReply partnerReply : reply)
         (w w' : world) (body : savings),
    original_price b = Fin q -> 0 <= q -> fair w ->
    search b broadReply partnerReply w = (Ok (SAVINGS_FOUND body), w') ->
    exists x : Q,
      r_newPrice body = Fin x /\ 0 <= x /\ x < q /\
      r_savings body = Fin (q - x) /\ 0 < q - x.
Proof.
  intros b q broadReply partnerReply w w' body Orig Hq F Run.
  rewrite search_steps, Orig in Run.
  destruct (searchA (Fin q) broadReply w) as [[bo|e] w1] eqn:RunA;
    [|discriminate].
  destruct (searchB (Fin q) partnerReply w1) as [[po|e] w2] eqn:RunB;
    [|discriminate].
  pose proof (searchA_price q _ _ _ _ Hq F RunA) as ShapeA.
  assert (fair w1) as F1.
  { apply (fair_of_draws w); [|exact F]. now apply searchA_keeps_draws in RunA. }
  pose proof (searchB_price q _ _ _ _ Hq F1 RunB) as ShapeB.
  destruct (Num.ge _ _ && Num.ge _ _) eqn:Savings; [discriminate|].
  cbv zeta in Run.
  destruct (link_step _ _ _ _ _) as [[link|e] w3]; [|discriminate].
  injection Run as <- <-.
  destruct (chosen_price_saves q _ _ ShapeB ShapeA Savings) as (x & Chosen & Pos & Lt).
  exists x. unfold savings_body. cbn [r_newPrice r_savings].
  rewrite Orig.
  destruct (showPartner _); rewrite Chosen;
    (split; [reflexivity|]; split; [exact Pos|]; split; [exact Lt|];
     split; [reflexivity | lra]).
Qed.



(** X11: when the original price is [NaN] (what a missing original_price
    amounts to in every comparison and subtraction of the handler), the
    handler never answers NO_SAVINGS_FOUND, and a SAVINGS_FOUND body is on
    the competitor branch with savings [NaN]. *)
Theorem nan_original_price_never_gives_no_savings :
  forall (hotel_name check_in_date check_out_date : option jsstring)
         (broadReply partnerReply : reply) (w w' : world) (r : response),
    search {| hotel_name := hotel_name; check_in_date := check_in_date;
              check_out_date := check_out_date; original_price := NaN |}
           broadReply partnerReply w = (Ok r, w') ->
    (forall n : number, r <> NO_SAVINGS_FOUND n) /\
    (forall body : savings,
        r = SAVINGS_FOUND body ->
        r_status body = SAVINGS_FOUND_COMPETITOR /\
        r_affiliateLink body = None /\
        r_savings body = NaN).
Proof.
  intros hn ci co broadReply partnerReply w w' r Run.
  rewrite search_steps in Run. cbn [original_price] in Run.
  destruct (searchA NaN broadReply w) as [[bo|e] w1];
    [|injection Run as <- <-; split; [discriminate | intros body [=]]].
  destruct (searchB NaN partnerReply w1) as [[po|e] w2];
    [|injection Run as <- <-; split; [discriminate | intros body [=]]].
  assert (forall n : number, Num.ge n NaN = false) as Never.
  { intro n. unfold Num.ge. reflexivity. }
  rewrite !Never in Run. cbn [andb] in Run. cbv zeta in Run.
  destruct (link_step _ _ _ _ _) as [[link|e] w3];
    injection Run as <- <-; (split; [discriminate|]); intros body [= <-].
  unfold savings_body, apply40PercentRule.
  cbn [r_status r_affiliateLink r_savings showPartner original_price Num.sub Num.le].
  repeat split; reflexivity.
Qed.

End HandlerProperties.

(** ** More on the links *)

Lemma hex_digit_unreserved (d : N) : uri_unreserved (hex_digit d) = true.
Proof.
  unfold hex_digit.
  assert (d mod 16 < 16)%N as B by (apply N.mod_upper_bound; discriminate).
  generalize dependent (d mod 16)%N. intros m B.
  destruct (N.ltb_spec m 10); unfold uri_unreserved.
  - apply orb_true_iff. left. apply orb_true_iff. right.
    apply andb_true_iff. split; apply N.leb_le; lia.
  - apply orb_true_iff. left. apply orb_true_iff. left. apply orb_true_iff. left.
    apply andb_true_iff. split; apply N.leb_le; lia.
Qed.

Lemma escape_safe (cp : N) : forallb url_safe (escape cp) = true.
Proof.
  unfold escape.
  induction (utf8 cp) as [|byte bytes IH]; [reflexivity|].
  cbn [List.map List.concat]. rewrite forallb_app, IH.
  unfold percent, url_safe. cbn [forallb].
  now rewrite !hex_digit_unreserved.
Qed.

Lemma encoded_safe (s t : jsstring) :
  encodeURIComponent s = Some t -> forallb url_safe t = true.
Proof.
  revert s t. apply encodeURIComponent_ind.
  - reflexivity.
  - intros c rest t U _ IH. cbn [forallb]. unfold url_safe at 1.
    now rewrite U, IH.
  - intros c d rest t _ _ _ _ _ IH. now rewrite forallb_app, escape_safe.
  - intros c rest t _ _ _ _ IH. now rewrite forallb_app, escape_safe.
Qed.

Lemma unreserved_is_not_percent (c : N) :
  uri_unreserved c = true -> N.eqb c 37 = false.
Proof.
  intro U. destruct (N.eqb_spec c 37) as [-> | _]; [discriminate U | reflexivity].
Qed.

Lemma encode_percent (byte : N) (rest rest' : jsstring) :
  encodeURIComponent rest = Some rest' ->
  encodeURIComponent (percent byte ++ rest)
  = Some (percent_again (percent byte) ++ rest').
Proof.
  intro E. unfold percent. cbn [app encodeURIComponent].
  rewrite !hex_digit_unreserved, E.
  change (uri_unreserved 37) with false.
  change (is_low_surrogate 37) with false.
  change (is_high_surrogate 37) with false.
  cbv beta iota. unfold percent_again. cbn [flat_map].
  rewrite !(unreserved_is_not_percent _ (hex_digit_unreserved _)).
  reflexivity.
Qed.

Lemma encode_escape (cp : N) (rest rest' : jsstring) :
  encodeURIComponent rest = Some rest' ->
  encodeURIComponent (escape cp ++ rest)
  = Some (percent_again (escape cp) ++ rest').
Proof.
  intro E. unfold escape.
  induction (utf8 cp) as [|byte bytes IH]; [exact E|].
  cbn [List.map List.concat]. rewrite <- app_assoc.
  rewrite (encode_percent byte _ _ IH).
  unfold percent_again. now rewrite flat_map_app, <- app_assoc.
Qed.

(** Encoding what has been encoded writes every percent sign as [%25]. *)
Lemma encode_encoded (s t : jsstring) :
  encodeURIComponent s = Some t ->
  encodeURIComponent t = Some (percent_again t).
Proof.
  revert s t. apply encodeURIComponent_ind.
  - reflexivity.
  - intros c rest t U _ IH. cbn [encodeURIComponent]. rewrite U, IH.
    unfold percent_again. cbn [flat_map option_map].
    now rewrite (unreserved_is_not_percent c U).
  - intros c d rest t _ _ _ _ _ IH.
    rewrite (encode_escape _ _ _ IH).
    unfold percent_again. now rewrite flat_map_app.
  - intros c rest t _ _ _ _ IH.
    rewrite (encode_escape _ _ _ IH).
    unfold percent_again. now rewrite flat_map_app.
Qed.

Section LinkProperties.

Context {host : Host}.


(** X15: for the site "hotels.com" the direct link encodes the hotel name
    twice: what stands after [q-destination=] is the encoded name with each
    of its percent signs written as [%25] (a space of the name reads
    [%2520]). *)
Theorem hotels_com_direct_link_encodes_the_name_twice :
  forall (o : offer) (s hotelSearch : jsstring)
         (hotelName checkIn checkOut : option jsstring) (w : world),
    site o = Some s ->
    toLowerCase s = lit "hotels.com" ->
    encodeURIComponent (or_else hotelName (lit "hotel")) = Some hotelSearch ->
    generateDirectLink o hotelName checkIn checkOut w
    = (Ok (lit "https://www.hotels.com/search.do?q-destination="
           ++ percent_again hotelSearch
           ++ lit "&q-check-in=" ++ or_else checkIn getDefaultCheckIn
           ++ lit "&q-check-out=" ++ or_else checkOut getDefaultCheckOut
           ++ lit "&q-rooms=1&q-room-0-adults=2&q-room-0-children=0"),
       logged F_generateDirectLink w).
Proof.
  intros o s hotelSearch hotelName checkIn checkOut w Site Key Enc.
  cbv beta iota delta [generateDirectLink bind enter encode site_lower ret].
  rewrite Enc, Site. cbv beta iota zeta. rewrite Key.
  change (str_eqb (lit "hotels.com") (lit "expedia")) with false.
  change (str_eqb (lit "hotels.com") (lit "agoda")) with false.
  change (str_eqb (lit "hotels.com") (lit "priceline")) with false.
  change (str_eqb (lit "hotels.com") (lit "booking.com")) with false.
  change (str_eqb (lit "hotels.com") (lit "booking")) with false.
  change (str_eqb (lit "hotels.com") (lit "trivago")) with false.
  change (str_eqb (lit "hotels.com") (lit "kayak")) with false.
  change (str_eqb (lit "hotels.com") (lit "hotels.com")) with true.
  cbv beta iota. cbn [orb].
  now rewrite (encode_encoded _ _ Enc).
Qed.

End LinkProperties.



(** ** Properties of the analysis *)

Section AnalysisProperties.

Context {host : Host}.
Variable object : Type.
Variable JSON_parse_object : jsstring -> option object.
Variable post : request_parts -> axios_result.

Lemma temporarily_unavailable_iff (status : option N) (code : option jsstring) :
  temporarily_unavailable (AxiosFailure status code) = true <->
  status = Some 503%N \/ code = Some (lit "ECONNRESET").
Proof.
  unfold temporarily_unavailable. rewrite orb_true_iff.
  assert ((match status with Some s => N.eqb s 503 | None => false end) = true
          <-> status = Some 503%N) as St.
  { destruct status as [s|]; [|split; discriminate].
    rewrite N.eqb_eq. split; congruence. }
  assert ((match code with
           | Some c => str_eqb c (lit "ECONNRESET")
           | None => false
           end) = true <-> code = Some (lit "ECONNRESET")) as Cd.
  { destruct code as [c|]; [|split; discriminate].
    unfold str_eqb. destruct (list_eq_dec N.eq_dec c (lit "ECONNRESET"));
      split; congruence. }
  now rewrite St, Cd.
Qed.

(** X16: the fallback booking is returned exactly when the request has a
    content type and the service rejects it with status 503 or with code
    ECONNRESET.  No other failure (a missing content type, another status,
    an answer without text, without braces, or that does not parse) is
    ever answered with the fallback booking. *)
Theorem fallback_booking_only_when_service_unavailable :
  forall (content : jsstring) (contentType : option jsstring),
    (exists b : fallback_booking,
        analyze_file object JSON_parse_object post content contentType
        = Analysed (Fallback b)) <->
    (exists (mime : jsstring) (status : option N) (code : option jsstring),
        contentType = Some mime /\
        post (parts_for content mime) = Rejected status code /\
        (status = Some 503%N \/ code = Some (lit "ECONNRESET"))).
Proof.
  intros content contentType.
  unfold analyze_file, analyzeFileWithGemini, analysis_attempt.
  destruct contentType as [mime|].
  2:{ split; [intros (b & Eq); discriminate Eq
             | intros (m & st & cd & Eq & _); discriminate Eq]. }
  cbv zeta.
  destruct (post _) as [status code | [text|]] eqn:Answer.
  - destruct (temporarily_unavailable (AxiosFailure status code)) eqn:T.
    + apply temporarily_unavailable_iff in T.
      split; [intros _ | intros _; eexists; reflexivity].
      exists mime, status, code. split; [reflexivity|]. split; [exact Answer|].
      exact T.
    + split; [intros (b & Eq); discriminate Eq|].
      intros (m & st & cd & Same & Eq & Unavailable).
      injection Same as <-. rewrite Answer in Eq. injection Eq as <- <-.
      apply temporarily_unavailable_iff in Unavailable. congruence.
  - split.
    + intros (b & Eq).
      destruct (indexOf text 123), (lastIndexOf text 125); try discriminate Eq.
      destruct (JSON_parse_object _); discriminate Eq.
    + intros (m & st & cd & Same & Eq & _).
      injection Same as <-. rewrite Answer in Eq. discriminate Eq.
  - split; [intros (b & Eq); discriminate Eq|].
    intros (m & st & cd & Same & Eq & _).
    injection Same as <-. rewrite Answer in Eq. discriminate Eq.
Qed.

(** X17: the endpoint answers with status 500, whatever the parser would
    return, when the request has no content type (the service is then not
    even called), when the answer has no text, and when the text of the
    answer lacks an opening or a closing brace. *)
Theorem analysis_fails_without_content_type_or_braces :
  forall (content mime text : jsstring),
    analyze_file object JSON_parse_object post content None = AnalysisError500 /\
    (post (parts_for content mime) = Resolved None ->
     analyze_file object JSON_parse_object post content (Some mime)
     = AnalysisError500) /\
    (post (parts_for content mime) = Resolved (Some text) ->
     ~ In 123%N text \/ ~ In 125%N text ->
     analyze_file object JSON_parse_object post content (Some mime)
     = AnalysisError500).
Proof.
  intros content mime text. split; [reflexivity|].
  unfold analyze_file, analyzeFileWithGemini, analysis_attempt.
  cbv zeta. split.
  - intros ->. reflexivity.
  - intros -> [NoOpen | NoClose].
    + now rewrite (indexOf_none _ _ NoOpen).
    + rewrite (lastIndexOf_none _ _ NoClose).
      now destruct (indexOf text 123).
Qed.

(** X18: when the service answers with a text, what stands before its
    first opening brace and after its last closing brace is dropped, and
    the endpoint sends the object parsed from the rest, or status 500 when
    the rest does not parse. *)
Theorem analysis_parses_from_first_to_last_brace :
  forall (content mime pre mid rest : jsstring),
    ~ In 123%N pre -> ~ In 125%N rest ->
    post (parts_for content mime)
    = Resolved (Some (pre ++ [123%N] ++ mid ++ [125%N] ++ rest)) ->
    analyze_file object JSON_parse_object post content (Some mime)
    = match JSON_parse_object ([123%N] ++ mid ++ [125%N]) with
      | Some fields => Analysed (Extracted fields)
      | None => AnalysisError500
      end.
Proof.
  intros content mime pre mid rest NoOpen NoClose Answer.
  unfold analyze_file, analyzeFileWithGemini, analysis_attempt.
  cbv zeta. rewrite Answer.
  cbn [app]. rewrite (indexOf_first pre _ 123 NoOpen).
  replace (pre ++ 123%N :: mid ++ 125%N :: rest)
    with ((pre ++ 123%N :: mid) ++ 125%N :: rest)
    by (now rewrite <- app_assoc).
  rewrite (lastIndexOf_last (pre ++ 123%N :: mid) rest 125 NoClose).
  replace ((pre ++ 123%N :: mid) ++ 125%N :: rest)
    with (pre ++ (123%N :: mid ++ [125%N]) ++ rest)
    by (rewrite <- !app_assoc; cbn [app]; now rewrite <- app_assoc).
  replace (List.length (pre ++ 123%N :: mid) + 1)%nat
    with (List.length pre + List.length (123%N :: mid ++ [125%N]))%nat
    by (rewrite !length_app; cbn [List.length]; rewrite length_app; cbn [List.length]; lia).
  rewrite slice_middle.
  destruct (JSON_parse_object _); reflexivity.
Qed.

End AnalysisProperties.

(** ** Properties of the authentication *)

Lemma startsWith_app (sep t : jsstring) : startsWith (sep ++ t) sep = true.
Proof.
  induction sep as [|c sep IH]; [destruct t; reflexivity|].
  cbn [app startsWith]. now rewrite N.eqb_refl.
Qed.

Lemma split_from_skip (sep a t cur : jsstring) :
  split_from sep (a ++ t) (List.length a) cur = split_from sep t O cur.
Proof.
  induction a as [|c a IH]; [reflexivity|]. exact IH.
Qed.

Lemma split_after_separator (c : N) (sep t : jsstring) :
  split ((c :: sep) ++ t) (c :: sep) = [] :: split t (c :: sep).
Proof.
  unfold split.
  change ((c :: sep) ++ t) with (c :: (sep ++ t)).
  cbn [split_from].
  change (c :: (sep ++ t)) with ((c :: sep) ++ t).
  rewrite startsWith_app.
  replace (List.length (c :: sep) - 1)%nat with (List.length sep)
    by (cbn [List.length]; lia).
  now rewrite split_from_skip.
Qed.

Lemma split_without_separator (c : N) (sep t cur : jsstring) :
  includes t (c :: sep) = false ->
  split_from (c :: sep) t O cur = [cur ++ t].
Proof.
  revert cur. induction t as [|x t IH]; intros cur Out.
  - cbn. now rewrite app_nil_r.
  - cbn [includes] in Out. apply orb_false_iff in Out. destruct Out as [Here Later].
    cbn [split_from]. rewrite Here, (IH _ Later).
    now rewrite <- app_assoc.
Qed.

Lemma str_eqb_true (a b : jsstring) : str_eqb a b = true <-> a = b.
Proof.
  unfold str_eqb. destruct (list_eq_dec N.eq_dec a b); split; congruence.
Qed.

Lemma get_set_same {V : Type} (o : object_of V) (k : jsstring) (v : V) :
  get (set o k v) k = Some v.
Proof.
  induction o as [|[k' v'] o IH]; cbn [set get].
  - assert (str_eqb k k = true) as R by now apply str_eqb_true.
    now rewrite R.
  - destruct (str_eqb k' k) eqn:E; cbn [get]; now rewrite E.
Qed.

Lemma get_set_other {V : Type} (o : object_of V) (k k' : jsstring) (v : V) :
  k <> k' -> get (set o k v) k' = get o k'.
Proof.
  intro Ne. induction o as [|[k0 v0] o IH]; cbn [set get].
  - destruct (str_eqb k k') eqn:E; [|reflexivity].
    apply str_eqb_true in E. congruence.
  - destruct (str_eqb k0 k) eqn:E; cbn [get].
    + apply str_eqb_true in E. subst k0.
      destruct (str_eqb k k') eqn:E'; [|reflexivity].
      apply str_eqb_true in E'. congruence.
    + now rewrite IH.
Qed.

Lemma get_absent {V : Type} (o : object_of V) (k : jsstring) :
  ~ In k (List.map fst o) -> get o k = None.
Proof.
  induction o as [|[k' v'] o IH]; intro Out; cbn [get]; [reflexivity|].
  destruct (str_eqb k' k) eqn:E.
  - apply str_eqb_true in E. subst k'. exfalso. apply Out. now left.
  - apply IH. intro Mem. apply Out. now right.
Qed.

(** In [{...a, ...b}] the properties of [b] win. *)
Lemma get_spread {V : Type} (a b : object_of V) (k : jsstring) :
  NoDup (List.map fst b) ->
  get (spread a b) k =
  match get b k with
  | Some v => Some v
  | None => get a k
  end.
Proof.
  unfold spread. revert a. induction b as [|[k0 v0] b IH]; intros a Distinct.
  - reflexivity.
  - cbn [List.map fst] in Distinct. inversion Distinct as [|? ? Fresh Rest]; subst.
    cbn [fold_left fst snd get]. rewrite (IH _ Rest).
    destruct (str_eqb k0 k) eqn:E.
    + apply str_eqb_true in E. subst k0.
      rewrite (get_absent b k Fresh). apply get_set_same.
    + destruct (get b k); [reflexivity|].
      apply get_set_other. intro Same. subst k0.
      assert (str_eqb k k = true) as R by now apply str_eqb_true.
      congruence.
Qed.

Section AuthenticationProperties.

Variable verifyIdToken : jsstring -> option user.
Variable V : Type.
Variable string_value : jsstring -> V.
Variable serverTimestamp : V.
Variable add : object_of V -> option jsstring.
Variable tracked_by : jsstring -> option (list (jsstring * object_of V)).

(** X19: for a header made of "Bearer " and a token that does not hold
    "Bearer " itself, the middleware has exactly that token verified, and
    the user of the request is what the verification returns. *)
Theorem bearer_token_is_what_follows_the_prefix :
  forall token : jsstring,
    includes token (lit "Bearer ") = false ->
    verifyFirebaseToken verifyIdToken (Some (lit "Bearer " ++ token))
    = verifyIdToken token.
Proof.
  intros token Clean. unfold verifyFirebaseToken.
  change (truthy (Some (lit "Bearer " ++ token))) with true.
  change (or_else (Some (lit "Bearer " ++ token)) []) with (lit "Bearer " ++ token).
  cbn [negb]. rewrite startsWith_app. cbn [negb].
  change (lit "Bearer ") with (66%N :: lit "earer ") in *.
  rewrite split_after_separator. unfold split.
  rewrite (split_without_separator _ _ _ [] Clean). reflexivity.
Qed.


(** X21: who wins when the client and the server name the same property.
    The document that [/api/track] stores has the verified uid as
    [userId] and the server time as [createdAt], whatever bookingData
    holds under these names, and every other property of bookingData as
    given.  In [/api/my-bookings] it is the other way round: a stored
    property [id] replaces the identifier of the document. *)
Theorem stored_owner_is_the_verified_user :
  forall (bookingData : object_of V) (u : user)
         (doc_id : jsstring) (data : object_of V),
    NoDup (List.map fst bookingData) -> NoDup (List.map fst data) ->
    let stored := trackingData V string_value serverTimestamp bookingData u in
    get stored (lit "userId") = Some (string_value (uid u)) /\
    get stored (lit "createdAt") = Some serverTimestamp /\
    (forall k : jsstring,
        k <> lit "userId" -> k <> lit "createdAt" ->
        get stored k = get bookingData k) /\
    get (listed V string_value (doc_id, data)) (lit "id")
    = match get data (lit "id") with
      | Some v => Some v
      | None => Some (string_value doc_id)
      end.
Proof.
  intros bookingData u doc_id data Distinct DistinctData stored. subst stored.
  unfold trackingData. split; [|split; [|split]].
  - rewrite get_set_other by discriminate. apply get_set_same.
  - apply get_set_same.
  - intros k NotUser NotCreated.
    rewrite get_set_other by congruence.
    rewrite get_set_other by congruence.
    rewrite (get_spread [] bookingData k Distinct).
    now destruct (get bookingData k).
  - unfold listed. cbn [fst snd].
    rewrite (get_spread _ data _ DistinctData).
    destruct (get data (lit "id")); reflexivity.
Qed.

End AuthenticationProperties.

(** * The further properties at concrete inputs *)

Lemma callGemini_parses_from_first_to_last_brace_witness :
  callGeminiWithWebSearch (host := scenario_host)
    (Replied (Some (lit "Sure, here it is: " ++ [123%N] ++ lit "x" ++ [125%N]
                    ++ lit " Done.")))
  = parsed_as (host := scenario_host) ([123%N] ++ lit "x" ++ [125%N]).
Proof.
  apply (@callGemini_parses_from_first_to_last_brace scenario_host).
  - cbn. intuition discriminate.
  - cbn. intuition discriminate.
Defined.

Lemma callGemini_rejects_text_without_braces_witness :
  callGeminiWithWebSearch (host := scenario_host)
    (Replied (Some (lit "I could not find this hotel.")))
  = Throw NoJsonError.
Proof.
  destruct (@callGemini_rejects_text_without_braces scenario_host
              (lit "I could not find this hotel.")) as (_ & _ & NoBrace).
  apply NoBrace; [discriminate|].
  left. cbn. intuition discriminate.
Defined.

Lemma callGemini_parses_empty_string_on_reversed_braces_witness :
  callGeminiWithWebSearch (host := scenario_host)
    (Replied (Some (lit "a" ++ [125%N] ++ lit " and " ++ [123%N] ++ lit "b")))
  = Throw SyntaxError.
Proof.
  rewrite (@callGemini_parses_empty_string_on_reversed_braces scenario_host
             (lit "a") (lit " and ") (lit "b")).
  - reflexivity.
  - cbn. intuition discriminate.
  - cbn. intuition discriminate.
  - cbn. intuition discriminate.
  - cbn. intuition discriminate.
Defined.

Lemma partner_pass_always_names_a_partner_witness :
  exists (o : offer) (w' : world),
    performPartnerSearchWithGemini (host := host_returning address_json)
      (Replied (Some address_text)) (constant_world 0.5) = (Ok o, w') /\
    truthy (partnerId o) = true.
Proof.
  destruct (@partner_pass_always_names_a_partner (host_returning address_json)
              (Replied (Some address_text)) (constant_world 0.5) fair_half)
    as (o & w' & Run & Named & _).
  now exists o, w'.
Defined.

Lemma partner_fallback_agrees_with_catalog_witness :
  exists (o : offer) (w' : world) (p : partner),
    performPartnerSearchWithGemini (host := plain_host) Failed (constant_world 0.5)
    = (Ok o, w') /\
    find_partner (partnerId o) = Some p /\
    site o = Some (partner_name p).
Proof.
  exact (@partner_fallback_agrees_with_catalog plain_host Failed RequestError
           (constant_world 0.5) eq_refl fair_half).
Defined.

Lemma repair_is_idempotent_from_two_and_a_half_witness :
  exists (o' : offer) (w' : world),
    repairBroadPrice (Fin 4000)
      {| site := Some (lit "Agoda"); price := Some (Fin 100); partnerId := None;
         conditions_match := true; direct_link := None |} (constant_world 0.5)
    = (Ok o', w') /\
    repairBroadPrice (Fin 4000) o' w' = (Ok o', w').
Proof.
  assert ((5 # 2) <= 4000) as Hq by lra.
  destruct (repair_is_idempotent_from_two_and_a_half 4000
              {| site := Some (lit "Agoda"); price := Some (Fin 100);
                 partnerId := None; conditions_match := true; direct_link := None |}
              (constant_world 0.5) Hq fair_half) as (Broad & _).
  exact Broad.
Defined.

Lemma partner_shown_when_not_dearer_witness :
  showPartner (apply40PercentRule (Fin 4000) (Fin 3800) (Fin 3900)) = true.
Proof.
  destruct (partner_shown_when_not_dearer 4000 3800 3900) as (Shown & _).
  apply Shown; lra.
Defined.


Lemma savings_found_means_positive_savings_witness :
  exists (body : savings) (w' : world) (x : Q),
    search (host := scenario_host) scenario_booking
      (Replied (Some broad_text)) (Replied (Some partner_text))
      (constant_world 0.5) = (Ok (SAVINGS_FOUND body), w') /\
    r_newPrice body = Fin x /\ x < 4000.
Proof.
  assert (0 <= 4000) as Hq by lra.
  destruct (search (host := scenario_host) scenario_booking
              (Replied (Some broad_text)) (Replied (Some partner_text))
              (constant_world 0.5)) as [[[n | body | e] | e] w'] eqn:Run;
    try (vm_compute in Run; discriminate Run).
  destruct (@savings_found_means_positive_savings scenario_host scenario_booking
              4000 _ _ _ _ _ eq_refl Hq fair_half Run)
    as (x & Price & _ & Below & _).
  now exists body, w', x.
Defined.



Lemma nan_original_price_never_gives_no_savings_witness :
  exists (r : response) (w' : world),
    search (host := plain_host)
      {| hotel_name := Some (lit "Dan Tel Aviv"); check_in_date := None;
         check_out_date := None; original_price := NaN |}
      Failed Failed (constant_world 0.5) = (Ok r, w') /\
    forall n : number, r <> NO_SAVINGS_FOUND n.
Proof.
  destruct (search (host := plain_host)
              {| hotel_name := Some (lit "Dan Tel Aviv"); check_in_date := None;
                 check_out_date := None; original_price := NaN |}
              Failed Failed (constant_world 0.5)) as [[r | e] w'] eqn:Run;
    [|vm_compute in Run; discriminate Run].
  exists r, w'. split; [reflexivity|].
  exact (proj1 (@nan_original_price_never_gives_no_savings plain_host _ _ _ _ _ _ _ _ Run)).
Defined.


Lemma hotels_com_direct_link_encodes_the_name_twice_witness :
  fst (generateDirectLink (host := plain_host)
         {| site := Some (lit "Hotels.com"); price := Some (Fin 3700);
            partnerId := None; conditions_match := false; direct_link := None |}
         (Some (lit "Dan Tel Aviv")) (Some (lit "2026-12-01"))
         (Some (lit "2026-12-03")) (constant_world 0.5))
  = Ok (lit "https://www.hotels.com/search.do?q-destination=Dan%2520Tel%2520Aviv"
        ++ lit "&q-check-in=2026-12-01&q-check-out=2026-12-03"
        ++ lit "&q-rooms=1&q-room-0-adults=2&q-room-0-children=0").
Proof.
  rewrite (@hotels_com_direct_link_encodes_the_name_twice plain_host
             {| site := Some (lit "Hotels.com"); price := Some (Fin 3700);
                partnerId := None; conditions_match := false; direct_link := None |}
             (lit "Hotels.com") (lit "Dan%20Tel%20Aviv")
             (Some (lit "Dan Tel Aviv")) (Some (lit "2026-12-01"))
             (Some (lit "2026-12-03")) (constant_world 0.5)
             eq_refl eq_refl eq_refl).
  reflexivity.
Defined.

Lemma analysis_fails_without_content_type_or_braces_witness :
  analyze_file (host := plain_host) unit (fun _ => Some tt) silent
    (lit "JVBERi0") (Some (lit "application/pdf"))
  = AnalysisError500.
Proof.
  destruct (@analysis_fails_without_content_type_or_braces plain_host unit
              (fun _ => Some tt) silent (lit "JVBERi0") (lit "application/pdf")
              (lit "Sorry, I cannot read this file.")) as (_ & _ & NoBrace).
  apply NoBrace; [reflexivity|].
  left. cbn. intuition discriminate.
Defined.

Lemma analysis_parses_from_first_to_last_brace_witness :
  analyze_file (host := plain_host) jsstring (fun s => Some s) talkative
    (lit "JVBERi0") (Some (lit "application/pdf"))
  = Analysed (Extracted ([123%N] ++ lit "x" ++ [125%N])).
Proof.
  rewrite (@analysis_parses_from_first_to_last_brace plain_host jsstring
             (fun s => Some s) talkative (lit "JVBERi0") (lit "application/pdf")
             (lit "Here you go: ") (lit "x") (lit " Bye")).
  - reflexivity.
  - cbn. intuition discriminate.
  - cbn. intuition discriminate.
  - reflexivity.
Defined.

Lemma bearer_token_is_what_follows_the_prefix_witness :
  verifyFirebaseToken accepts_abc (Some (lit "Bearer " ++ lit "abc"))
  = Some {| uid := lit "user-1" |}.
Proof.
  rewrite (bearer_token_is_what_follows_the_prefix accepts_abc (lit "abc") eq_refl).
  reflexivity.
Defined.


Lemma stored_owner_is_the_verified_user_witness :
  get (trackingData jsstring (fun s => s) (lit "now")
         [(lit "hotel_name", lit "Dan"); (lit "userId", lit "someone-else")]
         {| uid := lit "user-1" |}) (lit "userId")
  = Some (lit "user-1").
Proof.
  destruct (stored_owner_is_the_verified_user jsstring (fun s => s) (lit "now")
              [(lit "hotel_name", lit "Dan"); (lit "userId", lit "someone-else")]
              {| uid := lit "user-1" |} (lit "doc-1") []) as (Owner & _).
  - repeat constructor; cbn; intuition discriminate.
  - constructor.
  - exact Owner.
Defined.
